(** * ACL token / policy management: CLI token update and agent HTTP endpoints

    A shallow embedding of

    - the [consul acl token update] command ([package tokenupdate]),
    - the agent's ACL HTTP endpoints ([agent/acl_endpoint.go]), and
    - the [consul tls cert create] command ([package create]),

    together with the properties of identifier resolution, policy-link
    reconciliation and request validation that the design document states
    about them. *)

From Stdlib Require Import String Ascii List ZArith Bool Lia DecimalString.
Import ListNotations.

Local Open Scope string_scope.
Local Open Scope list_scope.

Notation "a +:+ b" := (String.append a b) (at level 60, right associativity).

(* ===================================================================== *)
(** * Go's [strings] package, as far as the sources use it *)
(* ===================================================================== *)

Module strings.

(** [strings.HasPrefix(s, prefix)] *)
Definition HasPrefix (s prefix : string) : bool := String.prefix prefix s.

(** [s[n:]] *)
Fixpoint drop (n : nat) (s : string) : string :=
  match n, s with
  | O, _ => s
  | S _, EmptyString => EmptyString
  | S n', String _ r => drop n' r
  end.

(** [strings.TrimPrefix(s, prefix)]: [s] without the leading [prefix], or
    [s] itself when it does not start with [prefix]. *)
Definition TrimPrefix (s prefix : string) : string :=
  if HasPrefix s prefix then drop (String.length prefix) s else s.

(** [strings.Contains(s, substr)] *)
Fixpoint Contains (s substr : string) : bool :=
  HasPrefix s substr ||
  match s with
  | EmptyString => false
  | String _ r => Contains r substr
  end.

End strings.

(* ===================================================================== *)
(** * [package api]: the records the command works on *)
(* ===================================================================== *)

Module api.

(** [api.ACLTokenPolicyLink]: a reference to a policy by ID or by Name. *)
Record ACLTokenPolicyLink := mkLink {
  ID : string;
  Name : string
}.

(** [&api.ACLTokenPolicyLink{Name: policyName}] *)
Definition NameLink (policyName : string) : ACLTokenPolicyLink :=
  {| ID := ""; Name := policyName |}.

(** [&api.ACLTokenPolicyLink{ID: policyID}] *)
Definition IDLink (policyID : string) : ACLTokenPolicyLink :=
  {| ID := policyID; Name := "" |}.

Record ACLToken := mkToken {
  AccessorID : string;
  SecretID : string;
  Description : string;
  Policies : list ACLTokenPolicyLink;
  Local : bool;
  CreateTime : Z;
  Rules : string
}.

Definition set_Description (t : ACLToken) (d : string) : ACLToken :=
  {| AccessorID := AccessorID t; SecretID := SecretID t; Description := d;
     Policies := Policies t; Local := Local t; CreateTime := CreateTime t;
     Rules := Rules t |}.

Definition set_Policies (t : ACLToken) (p : list ACLTokenPolicyLink) : ACLToken :=
  {| AccessorID := AccessorID t; SecretID := SecretID t;
     Description := Description t;
     Policies := p; Local := Local t; CreateTime := CreateTime t;
     Rules := Rules t |}.

End api.

(* ===================================================================== *)
(** * [package tokenupdate]: [consul acl token update] *)
(* ===================================================================== *)

Module tokenupdate.
Import api.

(** A Go [error], seen through its [Error()] text (the command only ever
    formats errors with [%v] / [%s]). *)
Definition error := string.

(** [flags.HTTPFlags]: the values given for the client and server flags. *)
Definition HTTPFlags := list (string * string).

(** The API client, as the command uses it.  [GetTokenIDFromPartial] and
    [GetPolicyIDFromPartial] are the helpers of [package acl] applied to this
    client; they return Go's pair of a string and an error. *)
Record Client := mkClient {
  GetTokenIDFromPartial : string -> string * option error;
  GetPolicyIDFromPartial : string -> string * option error;
  TokenRead : string -> error + ACLToken;
  TokenUpdate : ACLToken -> error + ACLToken
}.

(** What lies outside the command: which HTTP flag names
    [ClientFlags()]/[ServerFlags()] register, and what [APIClient()] gives
    for the flag values. *)
Record Env := mkEnv {
  httpFlagNames : list string;
  APIClient : HTTPFlags -> error + Client
}.

Record cmd := mkCmd {
  http : HTTPFlags;
  tokenID : string;
  policyIDs : list string;
  policyNames : list string;
  description : string;
  mergePolicies : bool
}.

(** [init]: the flag defaults. *)
Definition init : cmd :=
  {| http := []; tokenID := ""; policyIDs := []; policyNames := [];
     description := ""; mergePolicies := false |}.

(** [strconv.ParseBool], which [BoolVar] flags use. *)
Definition ParseBool (s : string) : option bool :=
  if existsb (String.eqb s) ["1"; "t"; "T"; "TRUE"; "true"; "True"] then Some true
  else if existsb (String.eqb s) ["0"; "f"; "F"; "FALSE"; "false"; "False"] then Some false
  else None.

(** One flag occurrence [-name=value] (a bare boolean flag is
    [-name=true]): the [Set] call [flag.Parse] makes on the registered
    variable.  [None] is a parse error: an unknown flag or a bad value. *)
Definition setFlag (e : Env) (c : cmd) (nv : string * string) : option cmd :=
  let (name, value) := nv in
  if name =? "merge-policies" then
    match ParseBool value with
    | Some b =>
        Some {| http := http c; tokenID := tokenID c; policyIDs := policyIDs c;
                policyNames := policyNames c; description := description c;
                mergePolicies := b |}
    | None => None
    end
  else if name =? "id" then
    Some {| http := http c; tokenID := value; policyIDs := policyIDs c;
            policyNames := policyNames c; description := description c;
            mergePolicies := mergePolicies c |}
  else if name =? "description" then
    Some {| http := http c; tokenID := tokenID c; policyIDs := policyIDs c;
            policyNames := policyNames c; description := value;
            mergePolicies := mergePolicies c |}
  else if name =? "policy-id" then
    Some {| http := http c; tokenID := tokenID c; policyIDs := policyIDs c ++ [value];
            policyNames := policyNames c; description := description c;
            mergePolicies := mergePolicies c |}
  else if name =? "policy-name" then
    Some {| http := http c; tokenID := tokenID c; policyIDs := policyIDs c;
            policyNames := policyNames c ++ [value]; description := description c;
            mergePolicies := mergePolicies c |}
  else if existsb (String.eqb name) (httpFlagNames e) then
    Some {| http := http c ++ [(name, value)]; tokenID := tokenID c;
            policyIDs := policyIDs c;
            policyNames := policyNames c; description := description c;
            mergePolicies := mergePolicies c |}
  else None.

(** [c.flags.Parse(args)], on the sequence of flag occurrences. *)
Fixpoint Parse (e : Env) (c : cmd) (args : list (string * string)) : option cmd :=
  match args with
  | [] => Some c
  | nv :: rest =>
      match setFlag e c nv with
      | Some c' => Parse e c' rest
      | None => None
      end
  end.

(** The inner loops of [Run]: is there a link with this Name / this ID? *)
Definition foundName (links : list ACLTokenPolicyLink) (policyName : string) : bool :=
  existsb (fun link => Name link =? policyName) links.

Definition foundID (links : list ACLTokenPolicyLink) (policyID : string) : bool :=
  existsb (fun link => ID link =? policyID) links.

(** [Run], lines 82-96: the merge loop over [c.policyNames]. *)
Fixpoint mergeNames (policyNames : list string) (links : list ACLTokenPolicyLink)
  : list ACLTokenPolicyLink :=
  match policyNames with
  | [] => links
  | policyName :: rest =>
      mergeNames rest
        (if foundName links policyName then links
         else links ++ [NameLink policyName])
  end.

Definition resolveError (policyID : string) (err : error) : string :=
  "Error resolving policy ID " +:+ policyID +:+ ": " +:+ err.

(** [Run], lines 98-116: the merge loop over [c.policyIDs].  [inl] is the
    message given to [UI.Error] before [return 1]. *)
Fixpoint mergeIDs (client : Client) (policyIDs : list string)
  (links : list ACLTokenPolicyLink) : string + list ACLTokenPolicyLink :=
  match policyIDs with
  | [] => inr links
  | partial :: rest =>
      match GetPolicyIDFromPartial client partial with
      | (policyID, Some err) => inl (resolveError policyID err)
      | (policyID, None) =>
          mergeIDs client rest
            (if foundID links policyID then links
             else links ++ [IDLink policyID])
      end
  end.

(** [Run], lines 120-124. *)
Fixpoint replaceNames (policyNames : list string) (links : list ACLTokenPolicyLink)
  : list ACLTokenPolicyLink :=
  match policyNames with
  | [] => links
  | policyName :: rest => replaceNames rest (links ++ [NameLink policyName])
  end.

(** [Run], lines 126-133. *)
Fixpoint replaceIDs (client : Client) (policyIDs : list string)
  (links : list ACLTokenPolicyLink) : string + list ACLTokenPolicyLink :=
  match policyIDs with
  | [] => inr links
  | partial :: rest =>
      match GetPolicyIDFromPartial client partial with
      | (policyID, Some err) => inl (resolveError policyID err)
      | (policyID, None) => replaceIDs client rest (links ++ [IDLink policyID])
      end
  end.

(** [Run], lines 81-134: the new [token.Policies]. *)
Definition reconcile (client : Client) (c : cmd) (links : list ACLTokenPolicyLink)
  : string + list ACLTokenPolicyLink :=
  if mergePolicies c then
    mergeIDs client (policyIDs c) (mergeNames (policyNames c) links)
  else
    replaceIDs client (policyIDs c) (replaceNames (policyNames c) []).

Inductive UIMsg :=
| UIError (msg : string)
| UIInfo (msg : string)
| PrintToken (token : ACLToken) (showMeta : bool).

(** What a run does: its exit code, what it writes to the UI, and the
    token it hands to [TokenUpdate], if it gets that far. *)
Record Outcome := mkOutcome {
  code : Z;
  ui : list UIMsg;
  sent : option ACLToken
}.

Definition fail (msg : string) : Outcome :=
  {| code := 1; ui := [UIError msg]; sent := None |}.

(** [Run], after the flags are parsed. *)
Definition runParsed (e : Env) (c : cmd) : Outcome :=
  if tokenID c =? "" then
    fail "Cannot update a token without specifying the -id parameter"
  else
    match APIClient e (http c) with
    | inl err => fail ("Error connecting to Consul agent: " +:+ err)
    | inr client =>
        match GetTokenIDFromPartial client (tokenID c) with
        | (_, Some err) => fail ("Error determining token ID: " +:+ err)
        | (tokenID, None) =>
            match TokenRead client tokenID with
            | inl err => fail ("Error when retrieving current token: " +:+ err)
            | inr token =>
                let token := set_Description token (description c) in
                match reconcile client c (Policies token) with
                | inl msg => fail msg
                | inr links =>
                    let token := set_Policies token links in
                    match TokenUpdate client token with
                    | inl err =>
                        {| code := 1;
                           ui := [UIError ("Failed to update token " +:+ tokenID
                                           +:+ ": " +:+ err)];
                           sent := Some token |}
                    | inr token' =>
                        {| code := 0;
                           ui := [UIInfo "Token updated successfully.";
                                  PrintToken token' true];
                           sent := Some token |}
                    end
                end
            end
        end
    end.

(** [Run(args)] of a freshly made command ([New]). *)
Definition Run (e : Env) (args : list (string * string)) : Outcome :=
  match Parse e init args with
  | None => {| code := 1; ui := []; sent := None |}
  | Some c => runParsed e c
  end.

End tokenupdate.

(* ===================================================================== *)
(** * [package structs]: the request and record types of the endpoints *)
(* ===================================================================== *)

Module structs.

Record ACLTokenPolicyLink := mkLink {
  link_ID : string;
  link_Name : string
}.

Record ACLToken := mkToken {
  AccessorID : string;
  SecretID : string;
  Description : string;
  Policies : list ACLTokenPolicyLink;
  Rules : string;
  Local : bool;
  CreateTime : Z
}.

Definition zeroToken : ACLToken :=
  {| AccessorID := ""; SecretID := ""; Description := ""; Policies := [];
     Rules := ""; Local := false; CreateTime := 0 |}.

Definition set_AccessorID (t : ACLToken) (id : string) : ACLToken :=
  {| AccessorID := id; SecretID := SecretID t; Description := Description t;
     Policies := Policies t; Rules := Rules t; Local := Local t;
     CreateTime := CreateTime t |}.

(** [ACLToken.Stub()] keeps what a listing shows. *)
Record ACLTokenListStub := mkStub {
  stub_AccessorID : string;
  stub_Description : string;
  stub_Policies : list ACLTokenPolicyLink;
  stub_Local : bool;
  stub_CreateTime : Z
}.

(** [acl.SyntaxVersion] *)
Inductive SyntaxVersion := SyntaxLegacy | SyntaxCurrent.

Record ACLPolicy := mkPolicy {
  ID : string;
  Name : string;
  policy_Description : string;
  policy_Rules : string;
  Syntax : SyntaxVersion
}.

Definition zeroPolicy : ACLPolicy :=
  {| ID := ""; Name := ""; policy_Description := ""; policy_Rules := "";
     Syntax := SyntaxLegacy |}.

Definition set_Syntax (p : ACLPolicy) (v : SyntaxVersion) : ACLPolicy :=
  {| ID := ID p; Name := Name p; policy_Description := policy_Description p;
     policy_Rules := policy_Rules p; Syntax := v |}.

Definition set_ID (p : ACLPolicy) (id : string) : ACLPolicy :=
  {| ID := id; Name := Name p; policy_Description := policy_Description p;
     policy_Rules := policy_Rules p; Syntax := Syntax p |}.

Definition set_Name (p : ACLPolicy) (n : string) : ACLPolicy :=
  {| ID := ID p; Name := n; policy_Description := policy_Description p;
     policy_Rules := policy_Rules p; Syntax := Syntax p |}.

Inductive ACLTokenIDType := ACLTokenSecret | ACLTokenAccessor.
Inductive ACLPolicyIDType := ACLPolicyName | ACLPolicyID.

Record QuerySource := mkSource {
  src_Datacenter : string;
  src_Segment : string;
  src_Node : string
}.

Definition zeroSource : QuerySource :=
  {| src_Datacenter := ""; src_Segment := ""; src_Node := "" |}.

Record QueryOptions := mkOptions {
  Token : string;
  MinQueryIndex : Z;
  AllowStale : bool;
  RequireConsistent : bool
}.

Definition zeroOptions : QueryOptions :=
  {| Token := ""; MinQueryIndex := 0; AllowStale := false;
     RequireConsistent := false |}.

Definition set_MinQueryIndex (o : QueryOptions) (i : Z) : QueryOptions :=
  {| Token := Token o; MinQueryIndex := i; AllowStale := AllowStale o;
     RequireConsistent := RequireConsistent o |}.

Record QueryMeta := mkMeta {
  Index : Z;
  LastContact : Z;
  KnownLeader : bool
}.

Definition zeroMeta : QueryMeta :=
  {| Index := 0; LastContact := 0; KnownLeader := false |}.

Record DCSpecificRequest := mkDCReq {
  dc_Datacenter : string;
  dc_Source : QuerySource;
  dc_QueryOptions : QueryOptions
}.

Record ACLTokenReadRequest := mkTokenRead {
  tr_TokenID : string;
  tr_TokenIDType : ACLTokenIDType;
  tr_Datacenter : string;
  tr_QueryOptions : QueryOptions
}.

Record ACLTokenListRequest := mkTokenList {
  tl_IncludeLocal : bool;
  tl_IncludeGlobal : bool;
  tl_Policy : string;
  tl_Datacenter : string;
  tl_QueryOptions : QueryOptions
}.

(** [WriteRequest.Token] is the caller's credential. *)
Record ACLTokenUpsertRequest := mkTokenUpsert {
  tu_ACLToken : ACLToken;
  tu_Datacenter : string;
  tu_Token : string
}.

Record ACLTokenDeleteRequest := mkTokenDelete {
  td_TokenID : string;
  td_Datacenter : string;
  td_Token : string
}.

Record ACLPolicyReadRequest := mkPolicyRead {
  pr_PolicyID : string;
  pr_PolicyIDType : ACLPolicyIDType;
  pr_Datacenter : string;
  pr_QueryOptions : QueryOptions
}.

Record ACLPolicyUpsertRequest := mkPolicyUpsert {
  pu_Policy : ACLPolicy;
  pu_Datacenter : string;
  pu_Token : string
}.

Record ACLPolicyDeleteRequest := mkPolicyDelete {
  pd_PolicyID : string;
  pd_PolicyIDType : ACLPolicyIDType;
  pd_Datacenter : string;
  pd_Token : string
}.

Record ACLTokenResponse := mkTokenResp {
  resp_Token : option ACLToken;
  tokenresp_QueryMeta : QueryMeta
}.

Record ACLTokensResponse := mkTokensResp {
  resp_Tokens : list ACLToken;
  tokensresp_QueryMeta : QueryMeta
}.

Record ACLPolicyResponse := mkPolicyResp {
  resp_Policy : option ACLPolicy;
  policyresp_QueryMeta : QueryMeta
}.

Record ACLPolicyMultiResponse := mkPoliciesResp {
  resp_Policies : list ACLPolicy;
  policiesresp_QueryMeta : QueryMeta
}.

Record ACLReplicationStatus := mkReplication {
  Enabled : bool;
  Running : bool;
  SourceDatacenter : string;
  ReplicatedIndex : Z
}.

End structs.

(* ===================================================================== *)
(** * [package agent]: the ACL HTTP endpoints ([acl_endpoint.go]) *)
(* ===================================================================== *)

Module agent.
Import structs.

(** ** Requests, responses, errors *)

Record Request := mkRequest {
  Method : string;
  URL_Path : string;
  URL_Query : list (string * string);
  Body : string
}.

(** [req.URL.Query().Get(key)]: the first value of [key], or the empty
    string. *)
Fixpoint Query_Get (q : list (string * string)) (key : string) : string :=
  match q with
  | [] => ""
  | (k, v) :: rest => if k =? key then v else Query_Get rest key
  end.

Definition StatusUnauthorized : Z := 401.
Definition StatusForbidden : Z := 403.

(** What a handler does to its [http.ResponseWriter], in order. *)
Inductive RespOp :=
| WriteHeader (statusCode : Z)
| Write (data : string)
| SetMeta (m : QueryMeta).

(** The errors a handler returns.  An error that comes from outside this
    file (the delegate's RPC, [fmt.Errorf]) is known by its [Error()]
    text. *)
Inductive error :=
| BadRequestError (Reason : string)
| MethodNotAllowedError (Method : string) (Allow : list string)
| ErrNotFound
| Err (text : string).

Record aclBootstrapResponse := mkBootstrapResponse {
  bootstrap_ID : string;
  bootstrap_ACLToken : ACLToken
}.

(** The [interface{}] a handler returns. *)
Inductive Value :=
| Nil
| BootstrapResponse (r : aclBootstrapResponse)
| ReplicationStatus (r : ACLReplicationStatus)
| PolicyList (l : list ACLPolicy)
| Policy (p : ACLPolicy)
| TokenStubs (l : list ACLTokenListStub)
| TokenValue (t : ACLToken)
| BoolTrue.

Definition Result : Type := Value * option error.

(** ** The store behind [s.agent.RPC] *)

Inductive RPCCall :=
| ACL_Bootstrap (args : DCSpecificRequest)
| ACL_ReplicationStatus (args : DCSpecificRequest)
| ACL_PolicyList (args : DCSpecificRequest)
| ACL_PolicyRead (args : ACLPolicyReadRequest)
| ACL_PolicyUpsert (args : ACLPolicyUpsertRequest)
| ACL_PolicyDelete (args : ACLPolicyDeleteRequest)
| ACL_TokenList (args : ACLTokenListRequest)
| ACL_TokenRead (args : ACLTokenReadRequest)
| ACL_TokenUpsert (args : ACLTokenUpsertRequest)
| ACL_TokenClone (args : ACLTokenUpsertRequest)
| ACL_TokenUpgrade (args : ACLTokenUpsertRequest)
| ACL_TokenDelete (args : ACLTokenDeleteRequest).

(** [s.agent.delegate]: each RPC gives the reply it leaves in [out] and
    the text of its error, if it fails. *)
Record Delegate := mkDelegate {
  ACLsEnabled : bool;
  Bootstrap : DCSpecificRequest -> ACLToken * option string;
  ReplicationStatusRPC : DCSpecificRequest -> ACLReplicationStatus * option string;
  PolicyListRPC : DCSpecificRequest -> ACLPolicyMultiResponse * option string;
  PolicyReadRPC : ACLPolicyReadRequest -> ACLPolicyResponse * option string;
  PolicyUpsert : ACLPolicyUpsertRequest -> ACLPolicy * option string;
  PolicyDelete : ACLPolicyDeleteRequest -> string * option string;
  TokenListRPC : ACLTokenListRequest -> ACLTokensResponse * option string;
  TokenReadRPC : ACLTokenReadRequest -> ACLTokenResponse * option string;
  TokenUpsert : ACLTokenUpsertRequest -> ACLToken * option string;
  TokenClone : ACLTokenUpsertRequest -> ACLToken * option string;
  TokenUpgrade : ACLTokenUpsertRequest -> ACLToken * option string;
  TokenDelete : ACLTokenDeleteRequest -> string * option string
}.

(** What [s.parse] leaves: whether the request is done (it then has
    written a response), the datacenter and the query options. *)
Record Parsed := mkParsed {
  done : bool;
  parsed_Datacenter : string;
  parsed_QueryOptions : QueryOptions;
  parsed_written : list RespOp
}.

(** The server: its configuration, its delegate, and the request parsing
    methods of [http.go]. *)
Record HTTPServer := mkServer {
  Datacenter : string;
  delegate : Delegate;
  parse : Request -> string -> QueryOptions -> Parsed;
  parseSource : Request -> QuerySource -> QuerySource;
  parseToken : Request -> string -> string
}.

(** What the file takes from other packages and from [http.go]. *)
Record Imports := mkImports {
  (** the text of [structs.ACLBootstrapNotAllowedErr] *)
  ACLBootstrapNotAllowedErr : string;
  (** [acl.PermissionDeniedError{Cause: cause}.Error()] *)
  PermissionDeniedError : string -> string;
  (** [acl.TranslateLegacyRules] *)
  TranslateLegacyRules : string -> string * option string;
  (** the [Stub()] method of a token *)
  Stub : ACLToken -> ACLTokenListStub;
  (** [ioutil.ReadAll(req.Body)] *)
  ReadAll : Request -> string * option string;
  (** [decodeBody(req, &args.Policy, nil)] into a zero policy *)
  decodeBody_Policy : Request -> ACLPolicy * option string;
  (** [decodeBody(req, &args.ACLToken, fixCreateTime)] into a zero token *)
  decodeBody_ACLToken : Request -> ACLToken * option string
}.

(** ** Handlers thread the response writer and the log of RPCs made *)

Record HState := mkState {
  resp : list RespOp;
  calls : list RPCCall
}.

Definition M (A : Type) : Type := HState -> A * HState.

Definition ret {A : Type} (a : A) : M A := fun st => (a, st).

Definition bind {A B : Type} (m : M A) (k : A -> M B) : M B :=
  fun st => let (a, st') := m st in k a st'.

Declare Scope handler_scope.
Delimit Scope handler_scope with handler.
Bind Scope handler_scope with M.

Notation "x <- m ;; k" := (bind m (fun x => k))
  (at level 61, m at next level, right associativity) : handler_scope.
Notation "' pat <- m ;; k" := (bind m (fun x => match x with pat => k end))
  (at level 61, pat pattern, m at next level, right associativity) : handler_scope.
Notation "m ;; k" := (bind m (fun _ => k))
  (at level 61, right associativity) : handler_scope.

Local Open Scope handler_scope.

Definition respond (ops : list RespOp) : M unit :=
  fun st => (tt, {| resp := resp st ++ ops; calls := calls st |}).

Definition rpc {R : Type} (call : RPCCall) (reply : R * option string)
  : M (R * option string) :=
  fun st => (reply, {| resp := resp st; calls := calls st ++ [call] |}).

(** [setMeta(resp, &m)] *)
Definition setMeta (m : QueryMeta) : M unit := respond [SetMeta m].

Definition initial : HState := {| resp := []; calls := [] |}.

Definition run {A : Type} (m : M A) : A * HState := m initial.

(** ** The endpoints *)

Section Endpoints.
Variable im : Imports.
Variable s : HTTPServer.

Definition RPC_Bootstrap (args : DCSpecificRequest) :=
  rpc (ACL_Bootstrap args) (Bootstrap (delegate s) args).
Definition RPC_ReplicationStatus (args : DCSpecificRequest) :=
  rpc (ACL_ReplicationStatus args) (ReplicationStatusRPC (delegate s) args).
Definition RPC_PolicyList (args : DCSpecificRequest) :=
  rpc (ACL_PolicyList args) (PolicyListRPC (delegate s) args).
Definition RPC_PolicyRead (args : ACLPolicyReadRequest) :=
  rpc (ACL_PolicyRead args) (PolicyReadRPC (delegate s) args).
Definition RPC_PolicyUpsert (args : ACLPolicyUpsertRequest) :=
  rpc (ACL_PolicyUpsert args) (PolicyUpsert (delegate s) args).
Definition RPC_PolicyDelete (args : ACLPolicyDeleteRequest) :=
  rpc (ACL_PolicyDelete args) (PolicyDelete (delegate s) args).
Definition RPC_TokenList (args : ACLTokenListRequest) :=
  rpc (ACL_TokenList args) (TokenListRPC (delegate s) args).
Definition RPC_TokenRead (args : ACLTokenReadRequest) :=
  rpc (ACL_TokenRead args) (TokenReadRPC (delegate s) args).
Definition RPC_TokenUpsert (args : ACLTokenUpsertRequest) :=
  rpc (ACL_TokenUpsert args) (TokenUpsert (delegate s) args).
Definition RPC_TokenClone (args : ACLTokenUpsertRequest) :=
  rpc (ACL_TokenClone args) (TokenClone (delegate s) args).
Definition RPC_TokenUpgrade (args : ACLTokenUpsertRequest) :=
  rpc (ACL_TokenUpgrade args) (TokenUpgrade (delegate s) args).
Definition RPC_TokenDelete (args : ACLTokenDeleteRequest) :=
  rpc (ACL_TokenDelete args) (TokenDelete (delegate s) args).

(** [s.parse(resp, req, &dc, &opts)] *)
Definition s_parse (req : Request) (dc : string) (opts : QueryOptions)
  : M (bool * string * QueryOptions) :=
  let p := parse s req dc opts in
  respond (parsed_written p) ;;
  ret (done p, parsed_Datacenter p, parsed_QueryOptions p).

(** [if args.Datacenter == "" { args.Datacenter = s.agent.config.Datacenter }] *)
Definition defaultDatacenter (dc : string) : string :=
  if dc =? "" then Datacenter s else dc.

(** [checkACLDisabled]: a standard response if ACLs are disabled; [true]
    if they are disabled and the caller should not continue. *)
Definition checkACLDisabled (req : Request) : M bool :=
  if ACLsEnabled (delegate s) then ret false
  else
    respond [WriteHeader StatusUnauthorized] ;;
    respond [Write "ACL support disabled"] ;;
    ret true.

Definition ACLBootstrap (req : Request) : M Result :=
  disabled <- checkACLDisabled req ;;
  if disabled then ret (Nil, None)
  else
    let args := {| dc_Datacenter := Datacenter s; dc_Source := zeroSource;
                   dc_QueryOptions := zeroOptions |} in
    '(out, err) <- RPC_Bootstrap args ;;
    match err with
    | Some e =>
        if strings.Contains e (ACLBootstrapNotAllowedErr im) then
          respond [WriteHeader StatusForbidden] ;;
          respond [Write (PermissionDeniedError im e)] ;;
          ret (Nil, None)
        else ret (Nil, Some (Err e))
    | None =>
        ret (BootstrapResponse {| bootstrap_ID := SecretID out;
                                  bootstrap_ACLToken := out |}, None)
    end.

Definition ACLReplicationStatus (req : Request) : M Result :=
  disabled <- checkACLDisabled req ;;
  if disabled then ret (Nil, None)
  else
    let source := parseSource s req zeroSource in
    '(done, dc, opts) <- s_parse req "" zeroOptions ;;
    if done : bool then ret (Nil, None)
    else
      let args := {| dc_Datacenter := dc; dc_Source := source;
                     dc_QueryOptions := opts |} in
      '(out, err) <- RPC_ReplicationStatus args ;;
      match err with
      | Some e => ret (Nil, Some (Err e))
      | None => ret (ReplicationStatus out, None)
      end.

Definition ACLRulesTranslate (req : Request) : M Result :=
  let (policyBytes, err) := ReadAll im req in
  match err with
  | Some e => ret (Nil, Some (BadRequestError ("Failed to read body: " +:+ e)))
  | None =>
      let (translated, err) := TranslateLegacyRules im policyBytes in
      match err with
      | Some e => ret (Nil, Some (BadRequestError e))
      | None => respond [Write translated] ;; ret (Nil, None)
      end
  end.

Definition ACLRulesTranslateLegacyToken (req : Request) : M Result :=
  let tokenID := strings.TrimPrefix (URL_Path req) "/v1/acl/rules/translate/" in
  if tokenID =? "" then ret (Nil, Some (BadRequestError "Missing token ID"))
  else
    '(done, dc, opts) <- s_parse req (Datacenter s) zeroOptions ;;
    if done : bool then ret (Nil, None)
    else
      let args := {| tr_TokenID := tokenID;
                     tr_TokenIDType := ACLTokenAccessor;
                     tr_Datacenter := defaultDatacenter dc;
                     tr_QueryOptions := set_MinQueryIndex opts 0 |} in
      '(out, err) <- RPC_TokenRead args ;;
      (* the deferred [setMeta(resp, &out.QueryMeta)] runs on every return
         from here on *)
      match err with
      | Some e => setMeta (tokenresp_QueryMeta out) ;; ret (Nil, Some (Err e))
      | None =>
          match resp_Token out with
          | None => setMeta (tokenresp_QueryMeta out) ;; ret (Nil, Some ErrNotFound)
          | Some token =>
              if Rules token =? "" then
                setMeta (tokenresp_QueryMeta out) ;;
                ret (Nil, Some (Err "The specified token does not have any rules set"))
              else
                let (translated, err) := TranslateLegacyRules im (Rules token) in
                match err with
                | Some e =>
                    setMeta (tokenresp_QueryMeta out) ;;
                    ret (Nil, Some (Err ("Failed to parse legacy rules: " +:+ e)))
                | None =>
                    respond [Write translated] ;;
                    setMeta (tokenresp_QueryMeta out) ;;
                    ret (Nil, None)
                end
          end
      end.

(** The stubs this handler builds are not what it returns: it returns
    [out.Policies]. *)
Definition ACLPolicyList (req : Request) : M Result :=
  disabled <- checkACLDisabled req ;;
  if disabled then ret (Nil, None)
  else
    '(done, dc, opts) <- s_parse req "" zeroOptions ;;
    if done : bool then ret (Nil, None)
    else
      let args := {| dc_Datacenter := defaultDatacenter dc;
                     dc_Source := zeroSource; dc_QueryOptions := opts |} in
      '(out, err) <- RPC_PolicyList args ;;
      match err with
      | Some e => setMeta (policiesresp_QueryMeta out) ;; ret (Nil, Some (Err e))
      | None =>
          setMeta (policiesresp_QueryMeta out) ;;
          ret (PolicyList (resp_Policies out), None)
      end.

Definition ACLPolicyRead (req : Request) (policyID : string)
  (policyIDType : ACLPolicyIDType) : M Result :=
  '(done, dc, opts) <- s_parse req (Datacenter s) zeroOptions ;;
  if done : bool then ret (Nil, None)
  else
    let args := {| pr_PolicyID := policyID; pr_PolicyIDType := policyIDType;
                   pr_Datacenter := defaultDatacenter dc;
                   pr_QueryOptions := opts |} in
    '(out, err) <- RPC_PolicyRead args ;;
    match err with
    | Some e => setMeta (policyresp_QueryMeta out) ;; ret (Nil, Some (Err e))
    | None =>
        match resp_Policy out with
        | None => setMeta (policyresp_QueryMeta out) ;; ret (Nil, Some ErrNotFound)
        | Some policy => setMeta (policyresp_QueryMeta out) ;; ret (Policy policy, None)
        end
    end.

Definition ACLPolicyWrite (req : Request) (policyID : string)
  (policyIDType : ACLPolicyIDType) : M Result :=
  let token := parseToken s req "" in
  let (policy, err) := decodeBody_Policy im req in
  match err with
  | Some e => ret (Nil, Some (BadRequestError ("Policy decoding failed: " +:+ e)))
  | None =>
      let policy := set_Syntax policy SyntaxCurrent in
      let checked : error + ACLPolicy :=
        match policyIDType with
        | ACLPolicyID =>
            if negb (policyID =? "") && negb (ID policy =? "")
               && negb (ID policy =? policyID) then
              inl (BadRequestError "Policy ID in URL and payload do not match")
            else if ID policy =? "" then inr (set_ID policy policyID)
            else inr policy
        | ACLPolicyName =>
            if negb (policyID =? "") && negb (Name policy =? "")
               && negb (Name policy =? policyID) then
              inl (BadRequestError "Policy Name in URL and payload do not match")
            else if Name policy =? "" then inr (set_Name policy "")
            else inr policy
        end in
      match checked with
      | inl e => ret (Nil, Some e)
      | inr policy =>
          let args := {| pu_Policy := policy; pu_Datacenter := Datacenter s;
                         pu_Token := token |} in
          '(out, err) <- RPC_PolicyUpsert args ;;
          match err with
          | Some e => ret (Nil, Some (Err e))
          | None => ret (Policy out, None)
          end
      end
  end.

Definition ACLPolicyDelete (req : Request) (policyID : string)
  (policyIDType : ACLPolicyIDType) : M Result :=
  let args := {| pd_PolicyID := policyID; pd_PolicyIDType := policyIDType;
                 pd_Datacenter := Datacenter s;
                 pd_Token := parseToken s req "" |} in
  '(out, err) <- RPC_PolicyDelete args ;;
  match err with
  | Some e => ret (Nil, Some (Err e))
  | None => ret (BoolTrue, None)
  end.

Definition ACLPolicyCRUD (req : Request) : M Result :=
  disabled <- checkACLDisabled req ;;
  if disabled then ret (Nil, None)
  else
    let fn : option (Request -> string -> ACLPolicyIDType -> M Result) :=
      if Method req =? "GET" then Some ACLPolicyRead
      else if Method req =? "PUT" then Some ACLPolicyWrite
      else if Method req =? "DELETE" then Some ACLPolicyDelete
      else None in
    match fn with
    | None =>
        ret (Nil, Some (MethodNotAllowedError (Method req) ["GET"; "PUT"; "DELETE"]))
    | Some fn =>
        let policyID := strings.TrimPrefix (URL_Path req) "/v1/acl/policy/" in
        if (policyID =? "") && negb (Method req =? "PUT") then
          ret (Nil, Some (BadRequestError "Missing policy ID"))
        else
          let idType := Query_Get (URL_Query req) "idType" in
          if idType =? "" then fn req policyID ACLPolicyID
          else if idType =? "id" then fn req policyID ACLPolicyID
          else if idType =? "name" then fn req policyID ACLPolicyName
          else ret (Nil, Some (BadRequestError "Invalid value for idType parameter"))
    end.

Definition ACLPolicyCreate (req : Request) : M Result :=
  ACLPolicyWrite req "" ACLPolicyID.

Definition ACLTokenList (req : Request) : M Result :=
  disabled <- checkACLDisabled req ;;
  if disabled then ret (Nil, None)
  else
    '(done, dc, opts) <- s_parse req "" zeroOptions ;;
    if done : bool then ret (Nil, None)
    else
      let args := {| tl_IncludeLocal := true; tl_IncludeGlobal := true;
                     tl_Policy := Query_Get (URL_Query req) "policy";
                     tl_Datacenter := defaultDatacenter dc;
                     tl_QueryOptions := opts |} in
      '(out, err) <- RPC_TokenList args ;;
      match err with
      | Some e => setMeta (tokensresp_QueryMeta out) ;; ret (Nil, Some (Err e))
      | None =>
          setMeta (tokensresp_QueryMeta out) ;;
          ret (TokenStubs (map (Stub im) (resp_Tokens out)), None)
      end.

Definition ACLTokenRead (req : Request) (tokenID : string) : M Result :=
  '(done, dc, opts) <- s_parse req (Datacenter s) zeroOptions ;;
  if done : bool then ret (Nil, None)
  else
    let args := {| tr_TokenID := tokenID; tr_TokenIDType := ACLTokenAccessor;
                   tr_Datacenter := defaultDatacenter dc;
                   tr_QueryOptions := opts |} in
    '(out, err) <- RPC_TokenRead args ;;
    match err with
    | Some e => setMeta (tokenresp_QueryMeta out) ;; ret (Nil, Some (Err e))
    | None =>
        match resp_Token out with
        | None => setMeta (tokenresp_QueryMeta out) ;; ret (Nil, Some ErrNotFound)
        | Some token => setMeta (tokenresp_QueryMeta out) ;; ret (TokenValue token, None)
        end
    end.

Definition ACLTokenWrite (req : Request) (tokenID : string) : M Result :=
  let token := parseToken s req "" in
  let (acltoken, err) := decodeBody_ACLToken im req in
  match err with
  | Some e => ret (Nil, Some (BadRequestError ("Token decoding failed: " +:+ e)))
  | None =>
      let checked : error + ACLToken :=
        if AccessorID acltoken =? "" then inr (set_AccessorID acltoken tokenID)
        else if negb (tokenID =? "") && negb (AccessorID acltoken =? tokenID) then
          inl (BadRequestError "Token Accessor ID in URL and payload do not match")
        else inr acltoken in
      match checked with
      | inl e => ret (Nil, Some e)
      | inr acltoken =>
          let args := {| tu_ACLToken := acltoken; tu_Datacenter := Datacenter s;
                         tu_Token := token |} in
          '(out, err) <- RPC_TokenUpsert args ;;
          match err with
          | Some e => ret (Nil, Some (Err e))
          | None => ret (TokenValue out, None)
          end
      end
  end.

Definition ACLTokenDelete (req : Request) (tokenID : string) : M Result :=
  let args := {| td_TokenID := tokenID; td_Datacenter := Datacenter s;
                 td_Token := parseToken s req "" |} in
  '(out, err) <- RPC_TokenDelete args ;;
  match err with
  | Some e => ret (Nil, Some (Err e))
  | None => ret (BoolTrue, None)
  end.

Definition ACLTokenCRUD (req : Request) : M Result :=
  disabled <- checkACLDisabled req ;;
  if disabled then ret (Nil, None)
  else
    let fn : option (Request -> string -> M Result) :=
      if Method req =? "GET" then Some ACLTokenRead
      else if Method req =? "PUT" then Some ACLTokenWrite
      else if Method req =? "DELETE" then Some ACLTokenDelete
      else None in
    match fn with
    | None =>
        ret (Nil, Some (MethodNotAllowedError (Method req) ["GET"; "PUT"; "DELETE"]))
    | Some fn =>
        let tokenID := strings.TrimPrefix (URL_Path req) "/v1/acl/token/" in
        if (tokenID =? "") && negb (Method req =? "PUT") then
          ret (Nil, Some (BadRequestError "Missing token ID"))
        else fn req tokenID
    end.

Definition ACLTokenSelf (req : Request) : M Result :=
  '(done, dc, opts) <- s_parse req "" zeroOptions ;;
  if done : bool then ret (Nil, None)
  else
    let args := {| tr_TokenID := Token opts; tr_TokenIDType := ACLTokenSecret;
                   tr_Datacenter := defaultDatacenter dc;
                   tr_QueryOptions := opts |} in
    '(out, err) <- RPC_TokenRead args ;;
    match err with
    | Some e => setMeta (tokenresp_QueryMeta out) ;; ret (Nil, Some (Err e))
    | None =>
        match resp_Token out with
        | None => setMeta (tokenresp_QueryMeta out) ;; ret (Nil, Some ErrNotFound)
        | Some token => setMeta (tokenresp_QueryMeta out) ;; ret (TokenValue token, None)
        end
    end.

Definition ACLTokenCreate (req : Request) : M Result :=
  disabled <- checkACLDisabled req ;;
  if disabled then ret (Nil, None)
  else ACLTokenWrite req "".

Definition ACLTokenClone (req : Request) : M Result :=
  disabled <- checkACLDisabled req ;;
  if disabled then ret (Nil, None)
  else
    let tokenID := strings.TrimPrefix (URL_Path req) "/v1/acl/token/clone/" in
    if tokenID =? "" then ret (Nil, Some (BadRequestError "Missing token ID"))
    else
      let (acltoken, err) := decodeBody_ACLToken im req in
      let failed :=
        match err with
        | Some e => if e =? "EOF" then None else Some e
        | None => None
        end in
      match failed with
      | Some e => ret (Nil, Some (BadRequestError ("Token decoding failed: " +:+ e)))
      | None =>
          let args := {| tu_ACLToken := set_AccessorID acltoken tokenID;
                         tu_Datacenter := Datacenter s;
                         tu_Token := parseToken s req "" |} in
          '(out, err) <- RPC_TokenClone args ;;
          match err with
          | Some e => ret (Nil, Some (Err e))
          | None => ret (TokenValue out, None)
          end
      end.

Definition ACLTokenUpgrade (req : Request) : M Result :=
  disabled <- checkACLDisabled req ;;
  if disabled then ret (Nil, None)
  else
    let token := parseToken s req "" in
    let tokenID := strings.TrimPrefix (URL_Path req) "/v1/acl/token/upgrade/" in
    if tokenID =? "" then ret (Nil, Some (BadRequestError "Missing token ID"))
    else
      let (acltoken, err) := decodeBody_ACLToken im req in
      match err with
      | Some e => ret (Nil, Some (BadRequestError ("Token decoding failed: " +:+ e)))
      | None =>
          let checked : error + ACLToken :=
            if AccessorID acltoken =? "" then inr (set_AccessorID acltoken tokenID)
            else if negb (tokenID =? "") && negb (AccessorID acltoken =? tokenID) then
              inl (BadRequestError "Token Accessor ID in URL and payload do not match")
            else inr acltoken in
          match checked with
          | inl e => ret (Nil, Some e)
          | inr acltoken =>
              let args := {| tu_ACLToken := acltoken; tu_Datacenter := Datacenter s;
                             tu_Token := token |} in
              '(out, err) <- RPC_TokenUpgrade args ;;
              match err with
              | Some e => ret (Nil, Some (Err e))
              | None => ret (TokenValue out, None)
              end
          end
      end.

(** The endpoints that start with [checkACLDisabled]. *)
Definition guardedEndpoints : list (Request -> M Result) :=
  [ACLBootstrap; ACLReplicationStatus; ACLPolicyList; ACLPolicyCRUD;
   ACLTokenList; ACLTokenCRUD; ACLTokenCreate; ACLTokenClone;
   ACLTokenUpgrade].

(** The request [ACLBootstrap] sends to the store. *)
Definition bootstrapArgs : DCSpecificRequest :=
  {| dc_Datacenter := Datacenter s; dc_Source := zeroSource;
     dc_QueryOptions := zeroOptions |}.

End Endpoints.

(** The token ID [ACLRulesTranslateLegacyToken] takes from the path. *)
Definition translatePathID (req : Request) : string :=
  strings.TrimPrefix (URL_Path req) "/v1/acl/rules/translate/".

(** The request [ACLRulesTranslateLegacyToken] sends to the store after
    [s.parse] has left [p]. *)
Definition translateArgs (s : HTTPServer) (req : Request) (p : Parsed)
  : ACLTokenReadRequest :=
  {| tr_TokenID := translatePathID req;
     tr_TokenIDType := ACLTokenAccessor;
     tr_Datacenter := defaultDatacenter s (parsed_Datacenter p);
     tr_QueryOptions := set_MinQueryIndex (parsed_QueryOptions p) 0 |}.

End agent.

(* ===================================================================== *)
(** * [package acl] of the command line: resolving identifier prefixes *)
(* ===================================================================== *)

Module acl.

Inductive Resolution :=
| Resolved (id : string)
| NotFound
| AmbiguousIdentifier (conflicting : list string)
| BadRequest.

(** Modelled from the spec: the identifier resolver behind
    [acl.GetTokenIDFromPartial] and [acl.GetPolicyIDFromPartial], whose
    source file is not among the sources.  Design section 4.1: an empty
    prefix is invalid input; a prefix that equals a canonical identifier is
    an immediate match; otherwise the identifiers that start with the prefix
    (case-sensitive, byte-wise) decide: none is [NotFound], one is the
    match, more are [AmbiguousIdentifier] naming them. *)
Definition resolvePrefix (P : string) (S : list string) : Resolution :=
  if P =? "" then BadRequest
  else if existsb (String.eqb P) S then Resolved P
  else
    match filter (fun id => strings.HasPrefix id P) S with
    | [] => NotFound
    | [id] => Resolved id
    | ids => AmbiguousIdentifier ids
    end.

(** Modelled from the spec: [GetTokenIDFromPartial] is the resolver over
    the Accessor IDs of the listed tokens (its source is not among the
    sources). *)
Definition GetTokenIDFromPartial (tokens : list structs.ACLToken) (partialID : string)
  : Resolution :=
  resolvePrefix partialID (map structs.AccessorID tokens).

(** Modelled from the spec: [GetPolicyIDFromPartial] is the resolver over
    the IDs of the listed policies (its source is not among the sources). *)
Definition GetPolicyIDFromPartial (policies : list structs.ACLPolicy) (partialID : string)
  : Resolution :=
  resolvePrefix partialID (map structs.ID policies).

End acl.

(* ===================================================================== *)
(** * Reference definitions for the reconciler *)
(* ===================================================================== *)

Module reconciler.
Import api tokenupdate.

(** The requested policy IDs, resolved in order; the first failure is the
    message [Run] reports. *)
Fixpoint resolveAll (client : Client) (policyIDs : list string)
  : string + list string :=
  match policyIDs with
  | [] => inr []
  | partial :: rest =>
      match GetPolicyIDFromPartial client partial with
      | (policyID, Some err) => inl (resolveError policyID err)
      | (policyID, None) =>
          match resolveAll client rest with
          | inl msg => inl msg
          | inr ids => inr (policyID :: ids)
          end
      end
  end.

Definition mem (x : string) (l : list string) : bool := existsb (String.eqb x) l.

(** The elements of [l] that are not in [seen], each once, in the order in
    which they first occur. *)
Fixpoint firsts (seen l : list string) : list string :=
  match l with
  | [] => []
  | x :: rest =>
      if mem x seen then firsts seen rest else x :: firsts (x :: seen) rest
  end.

(** [l] without repetitions, in the order of first occurrence. *)
Definition firstOccurrences (l : list string) : list string := firsts [] l.

(** Both merge loops have this shape: append [mk x] for every [x] whose
    key no link of the list has at that moment. *)
Fixpoint appendMissing (key : ACLTokenPolicyLink -> string)
  (mk : string -> ACLTokenPolicyLink) (xs : list string)
  (links : list ACLTokenPolicyLink) : list ACLTokenPolicyLink :=
  match xs with
  | [] => links
  | x :: rest =>
      appendMissing key mk rest
        (if mem x (map key links) then links else links ++ [mk x])
  end.

(** The merge rule as the design document words it: existing links, then a
    Name-link for each requested name that no existing link has as its
    Name, then an ID-link for each requested ID that no existing link has
    as its ID. *)
Definition spec_merge (links : list ACLTokenPolicyLink) (names ids : list string)
  : list ACLTokenPolicyLink :=
  links
  ++ map NameLink (filter (fun n => negb (foundName links n)) names)
  ++ map IDLink (filter (fun i => negb (foundID links i)) ids).

(** The names newly linked by a merge, and the IDs newly linked after
    them. *)
Definition newNames (links : list ACLTokenPolicyLink) (names : list string)
  : list string :=
  firstOccurrences (filter (fun n => negb (foundName links n)) names).

Definition newIDs (links : list ACLTokenPolicyLink) (names ids : list string)
  : list string :=
  firstOccurrences
    (filter (fun i => negb (foundID (links ++ map NameLink (newNames links names)) i))
       ids).

(** The value a flag has after parsing: that of its last occurrence, or
    [default]. *)
Definition flagValue (name default : string) (args : list (string * string)) : string :=
  fold_left (fun v nv => if fst nv =? name then snd nv else v) args default.

End reconciler.

(* ===================================================================== *)
(** * Concrete settings used to exercise the definitions *)
(* ===================================================================== *)

Module scenario.
Import api tokenupdate.

(** A token linked to the policy [read-only] by name. *)
Definition readOnlyToken : ACLToken :=
  {| AccessorID := "abcd1234"; SecretID := "5ecr3t";
     Description := "before"; Policies := [NameLink "read-only"];
     Local := false; CreateTime := 0; Rules := "" |}.

(** A client for which every identifier given is already canonical. *)
Definition client : Client :=
  {| GetTokenIDFromPartial := fun partial => (partial, None);
     GetPolicyIDFromPartial := fun partial => (partial, None);
     TokenRead := fun _ => inr readOnlyToken;
     TokenUpdate := fun token => inr token |}.

Definition env : Env :=
  {| httpFlagNames := ["http-addr"; "token"; "datacenter"];
     APIClient := fun _ => inr client |}.

(** [-id abcd1234 -merge-policies -policy-name write] *)
Definition mergeWrite : cmd :=
  {| http := []; tokenID := "abcd1234"; policyIDs := []; policyNames := ["write"];
     description := ""; mergePolicies := true |}.

(** [-id abcd1234 -policy-name write] *)
Definition replaceWrite : cmd :=
  {| http := []; tokenID := "abcd1234"; policyIDs := []; policyNames := ["write"];
     description := ""; mergePolicies := false |}.

(** [-id abcd1234 -merge-policies -policy-name write -policy-name write] *)
Definition mergeWriteTwice : cmd :=
  {| http := []; tokenID := "abcd1234"; policyIDs := [];
     policyNames := ["write"; "write"];
     description := ""; mergePolicies := true |}.

(** [-id abcd1234 -merge-policies -policy-id 7f1a] on the token that is
    linked by name only. *)
Definition mergeByID : cmd :=
  {| http := []; tokenID := "abcd1234"; policyIDs := ["7f1a"]; policyNames := [];
     description := ""; mergePolicies := true |}.

(** The flag occurrences of [-id abcd1234 -merge-policies]. *)
Definition mergeOnlyArgs : list (string * string) :=
  [("id", "abcd1234"); ("merge-policies", "true")].

End scenario.

Module server_scenario.
Import structs agent.

Definition imports : Imports :=
  {| ACLBootstrapNotAllowedErr := "ACL bootstrap no longer allowed";
     PermissionDeniedError :=
       fun cause =>
         if (cause =? "")%string then "Permission denied"
         else "Permission denied: " +:+ cause;
     TranslateLegacyRules := fun rules => (rules, None);
     Stub :=
       fun t =>
         {| stub_AccessorID := AccessorID t; stub_Description := Description t;
            stub_Policies := Policies t; stub_Local := Local t;
            stub_CreateTime := CreateTime t |};
     ReadAll := fun req => (Body req, None);
     (* the payload gives rules only: no ID, no Name *)
     decodeBody_Policy :=
       fun req =>
         ({| ID := ""; Name := ""; policy_Description := "";
             policy_Rules := Body req; Syntax := SyntaxLegacy |}, None);
     (* the payload gives a description only: no AccessorID *)
     decodeBody_ACLToken :=
       fun req =>
         ({| AccessorID := ""; SecretID := ""; Description := Body req;
             Policies := []; Rules := ""; Local := false; CreateTime := 0 |}, None) |}.

Definition managementToken : ACLToken :=
  {| AccessorID := "aaaa1111"; SecretID := "5ecr3t";
     Description := "Bootstrap Token"; Policies := []; Rules := "";
     Local := false; CreateTime := 0 |}.

(** A store: are ACLs enabled, what does Bootstrap say, what does reading
    a token give. *)
Definition store (enabled : bool) (bootstrapErr : option string)
  (found : option ACLToken) : Delegate :=
  {| ACLsEnabled := enabled;
     Bootstrap := fun _ => (managementToken, bootstrapErr);
     ReplicationStatusRPC :=
       fun _ => ({| Enabled := false; Running := false; SourceDatacenter := "";
                    ReplicatedIndex := 0 |}, None);
     PolicyListRPC :=
       fun _ => ({| resp_Policies := []; policiesresp_QueryMeta := zeroMeta |}, None);
     PolicyReadRPC :=
       fun _ => ({| resp_Policy := None; policyresp_QueryMeta := zeroMeta |}, None);
     PolicyUpsert := fun args => (pu_Policy args, None);
     PolicyDelete := fun _ => ("", None);
     TokenListRPC :=
       fun _ => ({| resp_Tokens := []; tokensresp_QueryMeta := zeroMeta |}, None);
     TokenReadRPC :=
       fun _ => ({| resp_Token := found; tokenresp_QueryMeta := zeroMeta |}, None);
     TokenUpsert := fun args => (tu_ACLToken args, None);
     TokenClone := fun args => (tu_ACLToken args, None);
     TokenUpgrade := fun args => (tu_ACLToken args, None);
     TokenDelete := fun _ => ("", None) |}.

Definition serverOf (d : Delegate) : HTTPServer :=
  {| Datacenter := "dc1";
     delegate := d;
     parse :=
       fun req dc opts =>
         {| done := false; parsed_Datacenter := dc; parsed_QueryOptions := opts;
            parsed_written := [] |};
     parseSource := fun req source => source;
     parseToken := fun req token => Query_Get (URL_Query req) "token" |}.

Definition request (method path : string) (query : list (string * string))
  (body : string) : Request :=
  {| Method := method; URL_Path := path; URL_Query := query; Body := body |}.

(** [PUT /v1/acl/policy/my-policy?idType=name] with a payload that has no
    Name. *)
Definition putPolicyByName : Request :=
  request "PUT" "/v1/acl/policy/my-policy" [("idType", "name")]
    "key_prefix {policy = read}".

Definition disabledServer : HTTPServer := serverOf (store false None None).

(** A cluster that has been bootstrapped already. *)
Definition bootstrappedServer : HTTPServer :=
  serverOf (store true
              (Some "rpc error: ACL bootstrap no longer allowed (reset index: 13)")
              None).

(** A cluster without a leader. *)
Definition leaderlessServer : HTTPServer :=
  serverOf (store true (Some "No cluster leader") None).

(** A store without the token asked for, and one whose token has no
    rules. *)
Definition emptyServer : HTTPServer := serverOf (store true None None).

Definition rulelessServer : HTTPServer :=
  serverOf (store true None (Some managementToken)).

Definition postBootstrap : Request := request "PUT" "/v1/acl/bootstrap" [] "".

Definition getTranslate : Request :=
  request "GET" "/v1/acl/rules/translate/aaaa1111" [] "".

Definition getTranslateNoID : Request :=
  request "GET" "/v1/acl/rules/translate/" [] "".

(** Accessor IDs of the listed tokens. *)
Definition accessorIDs : list string := ["aaaa1111"; "aaaa2222"].

(** Policy IDs one of which continues another. *)
Definition policyIDs : list string := ["7f1a"; "7f1a22"; "90cc"].

End server_scenario.

(* ===================================================================== *)
(** * [acl_endpoint.go], further definitions *)
(* ===================================================================== *)

Module endpoints.
Import structs agent.

(** Every endpoint of the file that takes the request alone. *)
Definition all (im : Imports) (s : HTTPServer) : list (Request -> M Result) :=
  [ACLBootstrap im s; ACLReplicationStatus s; ACLRulesTranslate im;
   ACLRulesTranslateLegacyToken im s; ACLPolicyList s; ACLPolicyCRUD im s;
   ACLPolicyCreate im s; ACLTokenList im s; ACLTokenCRUD im s; ACLTokenSelf s;
   ACLTokenCreate im s; ACLTokenClone im s; ACLTokenUpgrade im s].

(** Is the error one that rejects the request itself? *)
Definition rejectsRequest (err : option error) : bool :=
  match err with
  | Some (BadRequestError _) => true
  | Some (MethodNotAllowedError _ _) => true
  | _ => false
  end.

(** The same server with the ACL switch of its delegate set to [enabled]. *)
Definition withACLs (enabled : bool) (s : HTTPServer) : HTTPServer :=
  {| Datacenter := Datacenter s;
     delegate :=
       {| ACLsEnabled := enabled;
          Bootstrap := Bootstrap (delegate s);
          ReplicationStatusRPC := ReplicationStatusRPC (delegate s);
          PolicyListRPC := PolicyListRPC (delegate s);
          PolicyReadRPC := PolicyReadRPC (delegate s);
          PolicyUpsert := PolicyUpsert (delegate s);
          PolicyDelete := PolicyDelete (delegate s);
          TokenListRPC := TokenListRPC (delegate s);
          TokenReadRPC := TokenReadRPC (delegate s);
          TokenUpsert := TokenUpsert (delegate s);
          TokenClone := TokenClone (delegate s);
          TokenUpgrade := TokenUpgrade (delegate s);
          TokenDelete := TokenDelete (delegate s) |};
     parse := parse s;
     parseSource := parseSource s;
     parseToken := parseToken s |}.

(** The [QueryMeta] the store leaves in [out] for a query RPC. *)
Definition repliedMeta (s : HTTPServer) (call : RPCCall) : option QueryMeta :=
  match call with
  | ACL_PolicyList args =>
      Some (policiesresp_QueryMeta (fst (PolicyListRPC (delegate s) args)))
  | ACL_PolicyRead args =>
      Some (policyresp_QueryMeta (fst (PolicyReadRPC (delegate s) args)))
  | ACL_TokenList args =>
      Some (tokensresp_QueryMeta (fst (TokenListRPC (delegate s) args)))
  | ACL_TokenRead args =>
      Some (tokenresp_QueryMeta (fst (TokenReadRPC (delegate s) args)))
  | _ => None
  end.

(** The datacenter and the credential ([WriteRequest.Token]) of a write
    RPC. *)
Definition writeCredential (call : RPCCall) : option (string * string) :=
  match call with
  | ACL_PolicyUpsert args => Some (pu_Datacenter args, pu_Token args)
  | ACL_PolicyDelete args => Some (pd_Datacenter args, pd_Token args)
  | ACL_TokenUpsert args => Some (tu_Datacenter args, tu_Token args)
  | ACL_TokenClone args => Some (tu_Datacenter args, tu_Token args)
  | ACL_TokenUpgrade args => Some (tu_Datacenter args, tu_Token args)
  | ACL_TokenDelete args => Some (td_Datacenter args, td_Token args)
  | _ => None
  end.

(** The datacenter of a query RPC that the handlers default to the
    agent's own. *)
Definition queryDatacenter (call : RPCCall) : option string :=
  match call with
  | ACL_PolicyList args => Some (dc_Datacenter args)
  | ACL_PolicyRead args => Some (pr_Datacenter args)
  | ACL_TokenList args => Some (tl_Datacenter args)
  | ACL_TokenRead args => Some (tr_Datacenter args)
  | _ => None
  end.

(** The error text the store answers a call with, if it fails. *)
Definition storeError (s : HTTPServer) (call : RPCCall) : option string :=
  match call with
  | ACL_Bootstrap args => snd (Bootstrap (delegate s) args)
  | ACL_ReplicationStatus args => snd (ReplicationStatusRPC (delegate s) args)
  | ACL_PolicyList args => snd (PolicyListRPC (delegate s) args)
  | ACL_PolicyRead args => snd (PolicyReadRPC (delegate s) args)
  | ACL_PolicyUpsert args => snd (PolicyUpsert (delegate s) args)
  | ACL_PolicyDelete args => snd (PolicyDelete (delegate s) args)
  | ACL_TokenList args => snd (TokenListRPC (delegate s) args)
  | ACL_TokenRead args => snd (TokenReadRPC (delegate s) args)
  | ACL_TokenUpsert args => snd (TokenUpsert (delegate s) args)
  | ACL_TokenClone args => snd (TokenClone (delegate s) args)
  | ACL_TokenUpgrade args => snd (TokenUpgrade (delegate s) args)
  | ACL_TokenDelete args => snd (TokenDelete (delegate s) args)
  end.

Definition isBootstrap (call : RPCCall) : bool :=
  match call with
  | ACL_Bootstrap _ => true
  | _ => false
  end.

(** The identifier each endpoint takes from the path. *)
Definition policyPathID (req : Request) : string :=
  strings.TrimPrefix (URL_Path req) "/v1/acl/policy/".

Definition tokenPathID (req : Request) : string :=
  strings.TrimPrefix (URL_Path req) "/v1/acl/token/".

Definition clonePathID (req : Request) : string :=
  strings.TrimPrefix (URL_Path req) "/v1/acl/token/clone/".

Definition upgradePathID (req : Request) : string :=
  strings.TrimPrefix (URL_Path req) "/v1/acl/token/upgrade/".

(** How [ACLPolicyCRUD] reads the [idType] parameter when it accepts it. *)
Definition idTypeOf (req : Request) : ACLPolicyIDType :=
  if Query_Get (URL_Query req) "idType" =? "name" then ACLPolicyName
  else ACLPolicyID.

End endpoints.

(* ===================================================================== *)
(** * [fixCreateTime] and the decoded request body it works on *)
(* ===================================================================== *)

Module decode.

(** A request body as [encoding/json] decodes it into an [interface{}],
    where [fixCreateTime] may have put a [time.Time]. *)
#[warnings="-register-all"] Inductive raw :=
| RawNil
| RawBool (b : bool)
| RawNumber (literal : string)
| RawString (s : string)
| RawTime (t : Z)
| RawList (l : list raw)
| RawMap (m : list (string * raw)).

(** [rawMap[key]], with Go's [ok]. *)
Fixpoint lookup (key : string) (m : list (string * raw)) : option raw :=
  match m with
  | [] => None
  | (k, v) :: rest => if k =? key then Some v else lookup key rest
  end.

(** [rawMap[key] = v] *)
Fixpoint assign (key : string) (v : raw) (m : list (string * raw))
  : list (string * raw) :=
  match m with
  | [] => [(key, v)]
  | (k, x) :: rest =>
      if k =? key then (k, v) :: rest else (k, x) :: assign key v rest
  end.

(** [fixCreateTime(raw)]: the body after the call and the error returned.
    [time_Parse] is [time.Parse(time.RFC3339, _)]. *)
Definition fixCreateTime (time_Parse : string -> string + Z) (r : raw)
  : raw * option string :=
  match r with
  | RawMap rawMap =>
      match lookup "CreateTime" rawMap with
      | Some (RawString sval) =>
          match time_Parse sval with
          | inl err => (r, Some err)
          | inr t => (RawMap (assign "CreateTime" (RawTime t) rawMap), None)
          end
      | _ => (r, None)
      end
  | _ => (r, None)
  end.

(** A stand-in for [time.Parse] that knows one timestamp. *)
Definition parseOne (sval : string) : string + Z :=
  if sval =? "2018-10-19T10:00:00Z" then inr 1539943200%Z
  else inl "parsing time: cannot parse as RFC3339".

Definition tokenBody : raw :=
  RawMap [("Description", RawString "agent token");
          ("CreateTime", RawString "2018-10-19T10:00:00Z");
          ("Local", RawBool false)].

Definition badTokenBody : raw :=
  RawMap [("Description", RawString "agent token");
          ("CreateTime", RawString "yesterday")].

End decode.

(* ===================================================================== *)
(** * Reading the command line of [consul acl token update] *)
(* ===================================================================== *)

Module commandline.

(** The values given to a flag, in the order of the command line. *)
Definition flagValues (name : string) (args : list (string * string)) : list string :=
  map snd (filter (fun nv => fst nv =? name) args).

(** [-id abcd1234 -policy-name read -policy-id 7f1a -policy-name write -id
    abcd5678] *)
Definition repeatedFlags : list (string * string) :=
  [("id", "abcd1234"); ("policy-name", "read"); ("policy-id", "7f1a");
   ("policy-name", "write"); ("id", "abcd5678")].

(** A client that knows no policy. *)
Definition strictClient : tokenupdate.Client :=
  {| tokenupdate.GetTokenIDFromPartial := fun partial => (partial, None);
     tokenupdate.GetPolicyIDFromPartial :=
       fun partial => ("", Some ("No such policy ID with prefix: " +:+ partial));
     tokenupdate.TokenRead := fun _ => inr scenario.readOnlyToken;
     tokenupdate.TokenUpdate := fun token => inr token |}.

Definition strictEnv : tokenupdate.Env :=
  {| tokenupdate.httpFlagNames := ["http-addr"; "token"; "datacenter"];
     tokenupdate.APIClient := fun _ => inr strictClient |}.

(** [-id abcd1234 -merge-policies -policy-name write -policy-id 7f1a] and
    the same without [-merge-policies]. *)
Definition mergeBoth : tokenupdate.cmd :=
  {| tokenupdate.http := []; tokenupdate.tokenID := "abcd1234";
     tokenupdate.policyIDs := ["7f1a"]; tokenupdate.policyNames := ["write"];
     tokenupdate.description := ""; tokenupdate.mergePolicies := true |}.

Definition replaceBoth : tokenupdate.cmd :=
  {| tokenupdate.http := []; tokenupdate.tokenID := "abcd1234";
     tokenupdate.policyIDs := ["7f1a"]; tokenupdate.policyNames := ["write"];
     tokenupdate.description := ""; tokenupdate.mergePolicies := false |}.

End commandline.

(* ===================================================================== *)
(** * [package create]: [consul tls cert create] *)
(* ===================================================================== *)

Module create.

Definition error := string.

(** [x509.ExtKeyUsage], the two values the command uses. *)
Inductive ExtKeyUsage := ExtKeyUsageServerAuth | ExtKeyUsageClientAuth.

Record cmd := mkCmd {
  ca : string;
  key : string;
  server : bool;
  client : bool;
  cli : bool;
  dc : string;
  domain : string
}.

(** [init]: the flag defaults. *)
Definition init : cmd :=
  {| ca := "consul-ca.pem"; key := "consul-ca-key.pem"; server := false;
     client := false; cli := false; dc := "dc1"; domain := "consul" |}.

(** What lies outside the command: the text of a flag error, the file
    system, and [package connect].  A signer is known by the key it was
    parsed from; an IP address by its text. *)
Record Env := mkEnv {
  flagErrorText : string -> string -> string;
  FileDoesNotExist : string -> bool;
  ReadFile : string -> error + string;
  Create : string -> option error;
  ParseSigner : string -> error + string;
  GenerateSerialNumber : error + Z;
  GenerateCert :
    string -> string -> Z -> list string -> list string -> list ExtKeyUsage ->
    error + (string * string)
}.

(** What [c.flags.Parse(args)] gives: [flag.ErrHelp], another error, or the
    flags set and [c.flags.Args()]. *)
Inductive Parsed :=
| ErrHelp
| ParseFailed (err : error)
| Flags (c : cmd) (rest : list string).

(** One flag occurrence [-name=value]. *)
Definition setFlag (e : Env) (c : cmd) (nv : string * string) : Parsed :=
  let (name, value) := nv in
  let bad := ParseFailed (flagErrorText e name value) in
  if name =? "ca-file" then
    Flags {| ca := value; key := key c; server := server c; client := client c;
             cli := cli c; dc := dc c; domain := domain c |} []
  else if name =? "key-file" then
    Flags {| ca := ca c; key := value; server := server c; client := client c;
             cli := cli c; dc := dc c; domain := domain c |} []
  else if name =? "server" then
    match tokenupdate.ParseBool value with
    | Some b =>
        Flags {| ca := ca c; key := key c; server := b; client := client c;
                 cli := cli c; dc := dc c; domain := domain c |} []
    | None => bad
    end
  else if name =? "client" then
    match tokenupdate.ParseBool value with
    | Some b =>
        Flags {| ca := ca c; key := key c; server := server c; client := b;
                 cli := cli c; dc := dc c; domain := domain c |} []
    | None => bad
    end
  else if name =? "cli" then
    match tokenupdate.ParseBool value with
    | Some b =>
        Flags {| ca := ca c; key := key c; server := server c; client := client c;
                 cli := b; dc := dc c; domain := domain c |} []
    | None => bad
    end
  else if name =? "dc" then
    Flags {| ca := ca c; key := key c; server := server c; client := client c;
             cli := cli c; dc := value; domain := domain c |} []
  else if name =? "domain" then
    Flags {| ca := ca c; key := key c; server := server c; client := client c;
             cli := cli c; dc := dc c; domain := value |} []
  else if (name =? "help") || (name =? "h") then ErrHelp
  else bad.

(** [c.flags.Parse(args)], on the flag occurrences and the arguments after
    them. *)
Fixpoint Parse (e : Env) (c : cmd) (flags : list (string * string))
  (rest : list string) : Parsed :=
  match flags with
  | [] => Flags c rest
  | nv :: more =>
      match setFlag e c nv with
      | Flags c' _ => Parse e c' more rest
      | other => other
      end
  end.

Inductive UIMsg :=
| UIError (msg : string)
| UIInfo (msg : string)
| UIOutput (msg : string).

(** What a run does: its exit code, what it writes to the UI, and the
    files it creates with what it writes into them. *)
Record Outcome := mkOutcome {
  code : Z;
  ui : list UIMsg;
  written : list (string * string)
}.

(** [fmt.Sprintf("%d", i)] *)
Definition itoa (i : nat) : string := NilEmpty.string_of_uint (Nat.to_uint i).

(** [fmt.Sprintf("%s-%d.pem", prefix, i)] and
    [fmt.Sprintf("%s-%d-key.pem", prefix, i)] *)
Definition certName (prefix : string) (i : nat) : string :=
  prefix +:+ "-" +:+ itoa i +:+ ".pem".

Definition keyName (prefix : string) (i : nat) : string :=
  prefix +:+ "-" +:+ itoa i +:+ "-key.pem".

Definition max : nat := 100 * 100.

(** [Run], lines 100-112, from index [i] with [fuel = max - i]: the first
    index at which neither file exists; [None] is the error after index
    [max]. *)
Fixpoint search (e : Env) (prefix : string) (i fuel : nat) : option (string * string) :=
  let tmpCert := certName prefix i in
  let tmpPk := keyName prefix i in
  if FileDoesNotExist e tmpCert && FileDoesNotExist e tmpPk then
    Some (tmpCert, tmpPk)
  else
    match fuel with
    | O => None
    | S fuel' => search e prefix (S i) fuel'
    end.

(** [Run], lines 72-96: names, addresses, key usages and file prefix of
    the role; [None] is the branch that should not happen. *)
Definition role (c : cmd) (prefix : string)
  : option (list string * list string * list ExtKeyUsage * string) :=
  if server c then
    Some (["server." +:+ dc c +:+ "." +:+ domain c; "localhost"],
          ["127.0.0.1"],
          [ExtKeyUsageServerAuth; ExtKeyUsageClientAuth],
          prefix +:+ "-server-" +:+ dc c)
  else if client c then
    Some (["localhost"], ["127.0.0.1"], [ExtKeyUsageClientAuth],
          prefix +:+ "-client")
  else if cli c then Some ([], [], [], prefix +:+ "-cli")
  else None.

Definition stop (said : list UIMsg) (files : list (string * string)) (msg : string)
  : Outcome :=
  {| code := 1; ui := said ++ [UIError msg]; written := files |}.

(** [Run], after the flags are parsed. *)
Definition runParsed (e : Env) (c : cmd) (rest : list string) : Outcome :=
  if ca c =? "" then stop [] [] "Please provide the ca"
  else if key c =? "" then stop [] [] "Please provide the key"
  else if negb ((server c && negb (client c) && negb (cli c))
                || (negb (server c) && client c && negb (cli c))
                || (negb (server c) && negb (client c) && cli c)) then
    stop [] [] "Please provide either -server, -client, or -cli"
  else
    let prefix := match rest with [] => "consul" | first :: _ => first end in
    match role c prefix with
    | None => stop [] [] "Neither client, cli nor server - should not happen"
    | Some (DNSNames, IPAddresses, extKeyUsage, prefix) =>
        match search e prefix 0 max with
        | None => stop [] [] "Could not find a filename that doesn't already exist"
        | Some (certFileName, pkFileName) =>
            match ReadFile e (ca c) with
            | inl err => stop [] [] ("Error reading CA: " +:+ err)
            | inr cert =>
                match ReadFile e (key c) with
                | inl err => stop [] [] ("Error reading CA key: " +:+ err)
                | inr keyPEM =>
                    let said := [UIInfo ("==> Using " +:+ ca c +:+ " and " +:+ key c)] in
                    match ParseSigner e keyPEM with
                    | inl err => stop said [] err
                    | inr signer =>
                        match GenerateSerialNumber e with
                        | inl err => stop said [] err
                        | inr sn =>
                            match GenerateCert e signer cert sn DNSNames IPAddresses
                                    extKeyUsage with
                            | inl err => stop said [] err
                            | inr (pub, priv) =>
                                match Create e certFileName with
                                | Some err => stop said [] err
                                | None =>
                                    let files := [(certFileName, pub)] in
                                    let said :=
                                      said ++ [UIOutput ("==> Saved " +:+ certFileName)] in
                                    match Create e pkFileName with
                                    | Some err => stop said files err
                                    | None =>
                                        {| code := 0;
                                           ui := said
                                                 ++ [UIOutput ("==> Saved " +:+ pkFileName)];
                                           written := files ++ [(pkFileName, priv)] |}
                                    end
                                end
                            end
                        end
                    end
                end
            end
        end
    end.

(** [Run(args)] of a freshly made command ([New]). *)
Definition Run (e : Env) (flags : list (string * string)) (rest : list string)
  : Outcome :=
  match Parse e init flags rest with
  | ErrHelp => {| code := 0; ui := []; written := [] |}
  | ParseFailed err => stop [] [] ("Failed to parse args: " +:+ err)
  | Flags c rest => runParsed e c rest
  end.

(** Neither the certificate file nor the key file of index [i] exists. *)
Definition free (e : Env) (prefix : string) (i : nat) : bool :=
  FileDoesNotExist e (certName prefix i) && FileDoesNotExist e (keyName prefix i).

(** How many of [-server], [-client] and [-cli] are set. *)
Definition roles (c : cmd) : nat :=
  length (filter (fun b : bool => b) [server c; client c; cli c]).

(** The command with another datacenter and domain. *)
Definition withDomain (c : cmd) (dc' domain' : string) : cmd :=
  {| ca := ca c; key := key c; server := server c; client := client c;
     cli := cli c; dc := dc'; domain := domain' |}.

End create.

Module create_scenario.
Import create.

(** A directory that holds the CA, its key and one server certificate
    made earlier; the key file of index 1 cannot be created when [locked]. *)
Definition directory (locked : bool) : Env :=
  {| flagErrorText := fun name value => "flag provided but not defined: -" +:+ name;
     FileDoesNotExist :=
       fun name =>
         negb (existsb (String.eqb name)
                 ["consul-ca.pem"; "consul-ca-key.pem"; "consul-server-dc1-0.pem";
                  "consul-server-dc1-0-key.pem"]);
     ReadFile :=
       fun name =>
         if name =? "consul-ca.pem" then inr "CA CERTIFICATE"
         else if name =? "consul-ca-key.pem" then inr "CA KEY"
         else inl ("open " +:+ name +:+ ": no such file or directory");
     Create :=
       fun name =>
         if locked && (name =? "consul-server-dc1-1-key.pem") then
           Some ("open " +:+ name +:+ ": permission denied")
         else None;
     ParseSigner := fun keyPEM => inr keyPEM;
     GenerateSerialNumber := inr 42%Z;
     GenerateCert :=
       fun signer cert sn names ips usages => inr ("CERTIFICATE", "PRIVATE KEY") |}.

Definition serverCmd : cmd :=
  {| ca := "consul-ca.pem"; key := "consul-ca-key.pem"; server := true;
     client := false; cli := false; dc := "dc1"; domain := "consul" |}.

Definition clientCmd : cmd :=
  {| ca := "consul-ca.pem"; key := "consul-ca-key.pem"; server := false;
     client := true; cli := false; dc := "dc1"; domain := "consul" |}.

Definition noRoleCmd : cmd := init.

End create_scenario.

Module endpoint_scenario.
Import structs agent server_scenario.

Definition getTokenNoID : Request := request "GET" "/v1/acl/token/" [] "".

Definition getToken : Request := request "GET" "/v1/acl/token/aaaa1111" [] "".

Definition deleteToken : Request :=
  request "DELETE" "/v1/acl/token/aaaa1111" [("token", "root")] "".

Definition putToken : Request :=
  request "PUT" "/v1/acl/token/aaaa1111" [("token", "root")] "rotated".

Definition patchToken : Request := request "PATCH" "/v1/acl/token/aaaa1111" [] "".

Definition cloneToken : Request :=
  request "PUT" "/v1/acl/token/clone/aaaa1111" [("token", "root")] "".

Definition deletePolicyByName : Request :=
  request "DELETE" "/v1/acl/policy/my-policy" [("idType", "name")] "".

Definition getPolicyBadType : Request :=
  request "GET" "/v1/acl/policy/7f1a" [("idType", "uuid")] "".

Definition postRules : Request :=
  request "POST" "/v1/acl/rules/translate" [] "key {policy = read}".

(** What [putPolicyByName] makes the agent send. *)
Definition upsertByName : ACLPolicyUpsertRequest :=
  {| pu_Policy :=
       {| ID := ""; Name := ""; policy_Description := "";
          policy_Rules := "key_prefix {policy = read}";
          Syntax := SyntaxCurrent |};
     pu_Datacenter := "dc1"; pu_Token := "" |}.

(** As [imports], for a request without a body. *)
Definition importsNoBody : Imports :=
  {| ACLBootstrapNotAllowedErr := ACLBootstrapNotAllowedErr imports;
     PermissionDeniedError := PermissionDeniedError imports;
     TranslateLegacyRules := TranslateLegacyRules imports;
     Stub := Stub imports;
     ReadAll := ReadAll imports;
     decodeBody_Policy := fun req => (zeroPolicy, Some "EOF");
     decodeBody_ACLToken := fun req => (zeroToken, Some "EOF") |}.

End endpoint_scenario.

Module reconcile_scenario.
Import api tokenupdate.

(** A client that resolves the prefix [7f1a] to the policy ID [7f1a2b3c]
    and knows no other policy. *)
Definition prefixClient : Client :=
  {| GetTokenIDFromPartial := fun partial => (partial, None);
     GetPolicyIDFromPartial :=
       fun partial =>
         if partial =? "7f1a" then ("7f1a2b3c", None)
         else ("", Some ("No such policy ID with prefix: " +:+ partial));
     TokenRead := fun _ => inr scenario.readOnlyToken;
     TokenUpdate := fun token => inr token |}.

(** A token linked to [read-only] by name and to [90cc0d1e] by ID. *)
Definition linked : list ACLTokenPolicyLink :=
  [{| ID := ""; Name := "read-only" |}; {| ID := "90cc0d1e"; Name := "" |}].


(** [-id abcd1234 -policy-name write -policy-name audit -policy-id 7f1a] *)
Definition replaceRequest : cmd :=
  {| http := []; tokenID := "abcd1234"; policyIDs := ["7f1a"];
     policyNames := ["write"; "audit"]; description := "";
     mergePolicies := false |}.

End reconcile_scenario.

(* ===================================================================== *)
(** * The policy-link reconciler *)
(* ===================================================================== *)

Section Reconciler.
Import api tokenupdate reconciler.

Lemma mem_app (x : string) (a b : list string) :
  mem x (a ++ b) = mem x a || mem x b.
Proof. unfold mem. apply existsb_app. Qed.

Lemma mem_In (x : string) (l : list string) : mem x l = true <-> In x l.
Proof.
  unfold mem. rewrite existsb_exists. split.
  - intros [y [Hy Heq]]. apply String.eqb_eq in Heq. now subst.
  - intros H. exists x. split; [assumption | apply String.eqb_refl].
Qed.

Lemma mem_cons (x y : string) (l : list string) :
  mem x (y :: l) = (x =? y)%string || mem x l.
Proof. reflexivity. Qed.

Lemma firsts_ext (l s1 s2 : list string) :
  (forall x, mem x s1 = mem x s2) -> firsts s1 l = firsts s2 l.
Proof.
  revert s1 s2. induction l as [|x rest IH]; intros s1 s2 Hs; simpl.
  - reflexivity.
  - rewrite <- (Hs x). destruct (mem x s1).
    + now apply IH.
    + f_equal. apply IH. intros y. rewrite !mem_cons. now rewrite Hs.
Qed.

Lemma firsts_filter (l s1 s2 : list string) :
  firsts (s1 ++ s2) l = firsts s2 (filter (fun x => negb (mem x s1)) l).
Proof.
  revert s2. induction l as [|x rest IH]; intros s2; simpl.
  - reflexivity.
  - rewrite mem_app. destruct (mem x s1) eqn:H1; simpl.
    + apply IH.
    + destruct (mem x s2) eqn:H2.
      * apply IH.
      * f_equal. rewrite <- IH. apply firsts_ext. intros y.
        rewrite mem_cons, !mem_app, mem_cons.
        destruct (y =? x)%string, (mem y s1); reflexivity.
Qed.

Lemma firsts_firstOccurrences (seen l : list string) :
  firsts seen l = firstOccurrences (filter (fun x => negb (mem x seen)) l).
Proof.
  unfold firstOccurrences. rewrite <- firsts_filter. now rewrite app_nil_r.
Qed.

Lemma firsts_complete (x : string) (l seen : list string) :
  In x l -> mem x (seen ++ firsts seen l) = true.
Proof.
  revert seen. induction l as [|y rest IH]; intros seen Hin; simpl in *.
  - contradiction.
  - destruct (mem y seen) eqn:Hy.
    + destruct Hin as [-> | Hin]; [| now apply IH].
      rewrite mem_app, Hy. reflexivity.
    + destruct Hin as [-> | Hin].
      * rewrite mem_app, mem_cons, String.eqb_refl. apply orb_true_r.
      * specialize (IH (y :: seen) Hin).
        change ((y :: seen) ++ firsts (y :: seen) rest)
          with (y :: (seen ++ firsts (y :: seen) rest)) in IH.
        rewrite mem_cons, mem_app in IH. rewrite mem_app, mem_cons.
        destruct (x =? y)%string, (mem x seen); simpl in *; auto.
Qed.

Lemma firsts_sound (x : string) (l seen : list string) :
  In x (firsts seen l) -> In x l /\ mem x seen = false.
Proof.
  revert seen. induction l as [|y rest IH]; intros seen Hin; simpl in *.
  - contradiction.
  - destruct (mem y seen) eqn:Hy.
    + destruct (IH _ Hin). auto.
    + destruct Hin as [-> | Hin]; [auto |].
      destruct (IH _ Hin) as [Hr Hm]. rewrite mem_cons in Hm.
      apply orb_false_iff in Hm. tauto.
Qed.

Lemma firsts_NoDup (l seen : list string) : NoDup (firsts seen l).
Proof.
  revert seen. induction l as [|y rest IH]; intros seen; simpl.
  - constructor.
  - destruct (mem y seen) eqn:Hy; [apply IH |].
    constructor; [| apply IH].
    intros Hin. apply firsts_sound in Hin. destruct Hin as [_ Hm].
    rewrite mem_cons, String.eqb_refl in Hm. discriminate.
Qed.

Lemma firsts_fresh (l seen : list string) :
  NoDup l -> (forall x, In x l -> mem x seen = false) -> firsts seen l = l.
Proof.
  revert seen. induction l as [|x rest IH]; intros seen Hnd Hfresh; cbn.
  - reflexivity.
  - rewrite (Hfresh x (or_introl eq_refl)). f_equal.
    inversion Hnd as [| ? ? Hnotin Hnd']; subst.
    apply IH; [assumption |].
    intros y Hy. rewrite mem_cons, (Hfresh y (or_intror Hy)), orb_false_r.
    apply String.eqb_neq. intros ->. contradiction.
Qed.

Section AppendMissing.
Variable key : ACLTokenPolicyLink -> string.
Variable mk : string -> ACLTokenPolicyLink.
Hypothesis key_mk : forall x, key (mk x) = x.

Lemma appendMissing_closed (xs : list string) (links : list ACLTokenPolicyLink) :
  appendMissing key mk xs links = links ++ map mk (firsts (map key links) xs).
Proof.
  revert links. induction xs as [|x rest IH]; intros links; simpl.
  - now rewrite app_nil_r.
  - destruct (mem x (map key links)) eqn:Hx.
    + apply IH.
    + rewrite IH, <- app_assoc. simpl. do 3 f_equal.
      apply firsts_ext. intros y.
      rewrite map_app, mem_app, mem_cons. simpl. rewrite key_mk.
      change (mem y [x]) with ((y =? x)%string || false).
      destruct (y =? x)%string, (mem y (map key links)); reflexivity.
Qed.

Lemma appendMissing_keeps (f : ACLTokenPolicyLink -> bool) xs links :
  existsb f links = true -> existsb f (appendMissing key mk xs links) = true.
Proof.
  intros H. rewrite appendMissing_closed, existsb_app, H. reflexivity.
Qed.

Lemma appendMissing_found (x : string) xs links :
  In x xs -> mem x (map key (appendMissing key mk xs links)) = true.
Proof.
  intros Hin. rewrite appendMissing_closed, map_app, map_map.
  rewrite (map_ext (fun y => key (mk y)) (fun y => y) key_mk), map_id.
  now apply firsts_complete.
Qed.

Lemma appendMissing_fixed xs links :
  (forall x, In x xs -> mem x (map key links) = true) ->
  appendMissing key mk xs links = links.
Proof.
  induction xs as [|x rest IH]; intros H; simpl.
  - reflexivity.
  - rewrite (H x (or_introl eq_refl)). apply IH.
    intros y Hy. apply H. now right.
Qed.
End AppendMissing.

Lemma foundName_mem links n : foundName links n = mem n (map Name links).
Proof.
  unfold foundName, mem. induction links as [|l rest IH]; simpl.
  - reflexivity.
  - now rewrite IH, String.eqb_sym.
Qed.

Lemma foundID_mem links i : foundID links i = mem i (map ID links).
Proof.
  unfold foundID, mem. induction links as [|l rest IH]; simpl.
  - reflexivity.
  - now rewrite IH, String.eqb_sym.
Qed.

Lemma mergeNames_appendMissing names links :
  mergeNames names links = appendMissing Name NameLink names links.
Proof.
  revert links. induction names as [|n rest IH]; intros links; simpl.
  - reflexivity.
  - now rewrite IH, foundName_mem.
Qed.

Lemma mergeIDs_appendMissing client ids links :
  mergeIDs client ids links =
  match resolveAll client ids with
  | inl msg => inl msg
  | inr rids => inr (appendMissing ID IDLink rids links)
  end.
Proof.
  revert links. induction ids as [|p rest IH]; intros links; simpl.
  - reflexivity.
  - destruct (GetPolicyIDFromPartial client p) as [policyID [err|]].
    + reflexivity.
    + rewrite IH, foundID_mem.
      destruct (resolveAll client rest); reflexivity.
Qed.

Lemma replaceNames_app names links :
  replaceNames names links = links ++ map NameLink names.
Proof.
  revert links. induction names as [|n rest IH]; intros links; simpl.
  - now rewrite app_nil_r.
  - now rewrite IH, <- app_assoc.
Qed.

Lemma replaceIDs_app client ids links :
  replaceIDs client ids links =
  match resolveAll client ids with
  | inl msg => inl msg
  | inr rids => inr (links ++ map IDLink rids)
  end.
Proof.
  revert links. induction ids as [|p rest IH]; intros links; simpl.
  - now rewrite app_nil_r.
  - destruct (GetPolicyIDFromPartial client p) as [policyID [err|]].
    + reflexivity.
    + rewrite IH. destruct (resolveAll client rest); [reflexivity |].
      now rewrite <- app_assoc.
Qed.

End Reconciler.

Section ReconcilerClaims.
Import api tokenupdate reconciler.

Lemma newNames_firsts links names :
  firsts (map Name links) names = newNames links names.
Proof.
  unfold newNames. rewrite firsts_firstOccurrences. f_equal.
  apply filter_ext. intros n. now rewrite foundName_mem.
Qed.

Lemma newIDs_firsts links names rids :
  firsts (map ID (links ++ map NameLink (newNames links names))) rids
  = newIDs links names rids.
Proof.
  unfold newIDs. rewrite firsts_firstOccurrences. f_equal.
  apply filter_ext. intros i. now rewrite foundID_mem.
Qed.

Lemma merge_closed client names ids links :
  mergeIDs client ids (mergeNames names links) =
  match resolveAll client ids with
  | inl msg => inl msg
  | inr rids =>
      inr (links ++ map NameLink (newNames links names)
                 ++ map IDLink (newIDs links names rids))
  end.
Proof.
  rewrite mergeIDs_appendMissing, mergeNames_appendMissing.
  destruct (resolveAll client ids) as [msg | rids]; [reflexivity |].
  rewrite (appendMissing_closed ID IDLink) by reflexivity.
  rewrite (appendMissing_closed Name NameLink) by reflexivity.
  now rewrite newNames_firsts, newIDs_firsts, <- app_assoc.
Qed.

Lemma mem_NameLink_IDs i names : i <> "" -> mem i (map ID (map NameLink names)) = false.
Proof.
  intros Hi. induction names as [|n rest IH].
  - reflexivity.
  - change (map ID (map NameLink (n :: rest)))
      with ("" :: map ID (map NameLink rest)).
    rewrite mem_cons, IH, orb_false_r.
    destruct (i =? "")%string eqn:E; [| reflexivity].
    apply String.eqb_eq in E. contradiction.
Qed.

Lemma firsts_In (x : string) (l seen : list string) :
  In x (firsts seen l) <-> In x l /\ mem x seen = false.
Proof.
  split.
  - apply firsts_sound.
  - intros [Hin Hseen]. apply mem_In.
    pose proof (firsts_complete x l seen Hin) as Hc.
    now rewrite mem_app, Hseen in Hc.
Qed.

(** The links of a merge for any request, repeated names and IDs included:
    the existing links in their order, then a Name-link for each distinct
    requested name, in order of first request, that no existing link has as
    its Name, then an ID-link for each distinct resolved ID, in order of
    first request, that no link then on the token has as its ID; a failed
    resolution is the only way to get no links. *)
Lemma merge_closed_form client c links :
  mergePolicies c = true ->
  reconcile client c links =
    match resolveAll client (policyIDs c) with
    | inl msg => inl msg
    | inr rids =>
        inr (links ++ map NameLink (newNames links (policyNames c))
                   ++ map IDLink (newIDs links (policyNames c) rids))
    end
  /\ (NoDup (newNames links (policyNames c))
      /\ forall n,
           In n (newNames links (policyNames c)) <->
           In n (policyNames c) /\ foundName links n = false)
  /\ (forall rids,
        NoDup (newIDs links (policyNames c) rids)
        /\ forall i,
             In i (newIDs links (policyNames c) rids) <->
             In i rids
             /\ foundID (links ++ map NameLink (newNames links (policyNames c))) i
                = false)
  /\ (forall rids i,
        resolveAll client (policyIDs c) = inr rids ->
        In i rids -> i <> "" -> foundID links i = false ->
        In (IDLink i) (map IDLink (newIDs links (policyNames c) rids))).
Proof.
  intros Hmerge. split; [| split; [| split]].
  - unfold reconcile. rewrite Hmerge. apply merge_closed.
  - rewrite <- newNames_firsts. split; [apply firsts_NoDup |].
    intros n. now rewrite firsts_In, foundName_mem.
  - intros rids. rewrite <- newIDs_firsts. split; [apply firsts_NoDup |].
    intros i. now rewrite firsts_In, foundID_mem.
  - intros rids i _ Hin Hi Hfound. apply in_map.
    rewrite <- newIDs_firsts. apply mem_In.
    pose proof (firsts_complete i rids
                  (map ID (links ++ map NameLink (newNames links (policyNames c)))) Hin)
      as Hc.
    rewrite mem_app, map_app, mem_app, <- foundID_mem, Hfound in Hc.
    rewrite mem_NameLink_IDs in Hc by assumption.
    rewrite <- map_app in Hc. exact Hc.
Qed.

Example merge_closed_form_example :
  reconcile scenario.client scenario.mergeWrite [NameLink "read-only"]
  = inr [NameLink "read-only"; NameLink "write"]
  /\ In (IDLink "7f1a")
       (map IDLink (newIDs [NameLink "read-only"] [] ["7f1a"])).
Proof.
  destruct (merge_closed_form scenario.client scenario.mergeWrite
              [NameLink "read-only"] eq_refl) as [H _].
  destruct (merge_closed_form scenario.client scenario.mergeByID
              [NameLink "read-only"] eq_refl) as (_ & _ & _ & H').
  split.
  - exact H.
  - apply (H' ["7f1a"] "7f1a"); [reflexivity | now left | discriminate | reflexivity].
Qed.

(** A name requested twice is linked once: the second request finds the
    link the first one appended. *)
Example merge_repeated_request :
  mergePolicies scenario.mergeWriteTwice = true
  /\ resolveAll scenario.client (policyIDs scenario.mergeWriteTwice) = inr []
  /\ reconcile scenario.client scenario.mergeWriteTwice [NameLink "read-only"]
     = inr [NameLink "read-only"; NameLink "write"]
  /\ spec_merge [NameLink "read-only"] (policyNames scenario.mergeWriteTwice) []
     = [NameLink "read-only"; NameLink "write"; NameLink "write"]
  /\ reconcile scenario.client scenario.mergeWriteTwice [NameLink "read-only"]
     <> inr (spec_merge [NameLink "read-only"]
               (policyNames scenario.mergeWriteTwice) []).
Proof.
  repeat split; try reflexivity. discriminate.
Qed.




(** C2.  In replace mode the new links are exactly the requested names as
    Name-links (the name as Name, no ID), in the caller's order, then the
    resolved IDs as ID-links (the ID as ID, no Name), in the caller's order,
    whatever links the token had; nothing else is kept. *)
Theorem replace_links client c links :
  mergePolicies c = false ->
  reconcile client c links =
    match resolveAll client (policyIDs c) with
    | inl msg => inl msg
    | inr rids =>
        inr (map (fun n => {| ID := ""; Name := n |}) (policyNames c)
             ++ map (fun i => {| ID := i; Name := "" |}) rids)
    end
  /\ (forall rids new link,
        resolveAll client (policyIDs c) = inr rids ->
        reconcile client c links = inr new ->
        In link new ->
        (exists n, In n (policyNames c) /\ link = {| ID := ""; Name := n |})
        \/ (exists i, In i rids /\ link = {| ID := i; Name := "" |})).
Proof.
  intros Hreplace.
  assert (Heq : reconcile client c links =
                match resolveAll client (policyIDs c) with
                | inl msg => inl msg
                | inr rids =>
                    inr (map (fun n => {| ID := ""; Name := n |}) (policyNames c)
                         ++ map (fun i => {| ID := i; Name := "" |}) rids)
                end).
  { unfold reconcile. rewrite Hreplace, replaceIDs_app, replaceNames_app.
    reflexivity. }
  split; [exact Heq |].
  intros rids new link Hres Hnew Hin.
  rewrite Heq, Hres in Hnew. injection Hnew as <-.
  apply in_app_or in Hin. destruct Hin as [Hin | Hin];
    apply in_map_iff in Hin; destruct Hin as [x [Hx Hin]]; eauto.
Qed.

Lemma replace_links_witness :
  reconcile reconcile_scenario.prefixClient reconcile_scenario.replaceRequest
    [{| ID := ""; Name := "read-only" |}; {| ID := "90cc0d1e"; Name := "" |}]
  = inr [{| ID := ""; Name := "write" |}; {| ID := ""; Name := "audit" |};
         {| ID := "7f1a2b3c"; Name := "" |}].
Proof.
  exact (proj1 (replace_links reconcile_scenario.prefixClient
                  reconcile_scenario.replaceRequest reconcile_scenario.linked
                  eq_refl)).
Defined.

(** C3.  Merging is idempotent: merging the same request into the links a
    merge produced gives those links again. *)
Theorem merge_idempotent client c links once :
  mergePolicies c = true ->
  reconcile client c links = inr once ->
  reconcile client c once = inr once.
Proof.
  unfold reconcile. intros ->.
  rewrite !mergeIDs_appendMissing, !mergeNames_appendMissing.
  destruct (resolveAll client (policyIDs c)) as [msg | rids]; [discriminate |].
  intros H. injection H as <-. f_equal.
  set (named := appendMissing Name NameLink (policyNames c) links).
  set (once := appendMissing ID IDLink rids named).
  assert (Hnames : appendMissing Name NameLink (policyNames c) once = once).
  { apply appendMissing_fixed. intros n Hn.
    rewrite <- foundName_mem. unfold once, foundName.
    apply appendMissing_keeps; [reflexivity |].
    fold (foundName named n). rewrite foundName_mem.
    now apply appendMissing_found. }
  rewrite Hnames. apply appendMissing_fixed. intros i Hi.
  now apply appendMissing_found.
Qed.

Lemma merge_idempotent_witness :
  reconcile scenario.client scenario.mergeWrite
    [NameLink "read-only"; NameLink "write"]
  = inr [NameLink "read-only"; NameLink "write"].
Proof.
  apply (merge_idempotent scenario.client scenario.mergeWrite
           [NameLink "read-only"]); reflexivity.
Defined.

End ReconcilerClaims.

(* ===================================================================== *)
(** * The command as a whole *)
(* ===================================================================== *)

Section Command.
Import api tokenupdate reconciler.

Lemma setFlag_description e c name value c' :
  setFlag e c (name, value) = Some c' ->
  description c' = if (name =? "description")%string then value else description c.
Proof.
  unfold setFlag.
  destruct (name =? "merge-policies")%string eqn:E1.
  { apply String.eqb_eq in E1. subst name.
    destruct (ParseBool value); [| discriminate].
    intros H. injection H as <-. reflexivity. }
  destruct (name =? "id")%string eqn:E2.
  { apply String.eqb_eq in E2. subst name.
    intros H. injection H as <-. reflexivity. }
  destruct (name =? "description")%string eqn:E3.
  { intros H. injection H as <-. reflexivity. }
  destruct (name =? "policy-id")%string.
  { intros H. injection H as <-. reflexivity. }
  destruct (name =? "policy-name")%string.
  { intros H. injection H as <-. reflexivity. }
  destruct (existsb (String.eqb name) (httpFlagNames e)); [| discriminate].
  intros H. injection H as <-. reflexivity.
Qed.

Lemma Parse_description e args c0 c :
  Parse e c0 args = Some c ->
  description c = flagValue "description" (description c0) args.
Proof.
  revert c0. induction args as [|[name value] rest IH]; intros c0; cbn [Parse].
  - intros H. injection H as <-. reflexivity.
  - destruct (setFlag e c0 (name, value)) as [c1|] eqn:Hset; [| discriminate].
    intros H. rewrite (IH _ H). unfold flagValue. cbn [fold_left fst snd].
    now rewrite (setFlag_description _ _ _ _ _ Hset).
Qed.

Lemma flagValue_omitted name default args :
  (forall nv, In nv args -> fst nv <> name) -> flagValue name default args = default.
Proof.
  unfold flagValue. revert default.
  induction args as [|nv rest IH]; intros default H; simpl.
  - reflexivity.
  - destruct (fst nv =? name)%string eqn:E.
    + apply String.eqb_eq in E. exfalso. apply (H nv); [now left | exact E].
    + apply IH. intros nv' Hin. apply H. now right.
Qed.

(** A run that exits with 0 has read the token, reconciled its links and
    sent it back with the description of the command. *)
Lemma runParsed_success e c :
  code (runParsed e c) = 0%Z ->
  exists client id token links,
    APIClient e (http c) = inr client
    /\ GetTokenIDFromPartial client (tokenID c) = (id, None)
    /\ TokenRead client id = inr token
    /\ reconcile client c (Policies token) = inr links
    /\ sent (runParsed e c)
       = Some (set_Policies (set_Description token (description c)) links).
Proof.
  unfold runParsed.
  destruct (tokenID c =? "")%string; [discriminate |].
  destruct (APIClient e (http c)) as [err | client] eqn:Hclient; [discriminate |].
  destruct (GetTokenIDFromPartial client (tokenID c)) as [id [err|]] eqn:Hid;
    [discriminate |].
  destruct (TokenRead client id) as [err | token] eqn:Hread; [discriminate |].
  simpl Policies.
  destruct (reconcile client c (Policies token)) as [msg | links] eqn:Hlinks;
    [discriminate |].
  destruct (TokenUpdate client _) as [err | token'] eqn:Hup; [discriminate |].
  intros _. exists client, id, token, links. repeat split; auto.
Qed.

(** C10.  A successful run sends the token with its Description set to the
    value of the [-description] flag, which is the empty string when the
    flag is not given, whatever the description was and whether or not
    [-merge-policies] is given. *)
Theorem description_overwritten e args :
  code (Run e args) = 0%Z ->
  exists token,
    sent (Run e args) = Some token
    /\ Description token = flagValue "description" "" args
    /\ ((forall nv, In nv args -> fst nv <> "description") ->
        Description token = "").
Proof.
  unfold Run. destruct (Parse e init args) as [c|] eqn:Hparse; [| discriminate].
  intros Hcode.
  destruct (runParsed_success e c Hcode)
    as (client & id & token & links & _ & _ & _ & _ & Hsent).
  eexists. split; [exact Hsent |].
  assert (Hd : description c = flagValue "description" "" args)
    by exact (Parse_description e args init c Hparse).
  split.
  - exact Hd.
  - intros Homitted. simpl. rewrite Hd. now apply flagValue_omitted.
Qed.

Lemma description_overwritten_witness :
  code (Run scenario.env scenario.mergeOnlyArgs) = 0%Z
  /\ exists token,
       sent (Run scenario.env scenario.mergeOnlyArgs) = Some token
       /\ Description token = ""
       /\ Policies token = Policies scenario.readOnlyToken
       /\ Description scenario.readOnlyToken = "before".
Proof.
  split; [reflexivity |].
  destruct (description_overwritten scenario.env scenario.mergeOnlyArgs eq_refl)
    as (token & Hsent & Hdesc & _).
  exists token. split; [exact Hsent |]. split; [exact Hdesc |].
  vm_compute in Hsent. injection Hsent as <-. split; reflexivity.
Defined.

End Command.

(* ===================================================================== *)
(** * The HTTP endpoints *)
(* ===================================================================== *)

Section EndpointClaims.
Import structs agent.

Variable im : Imports.
Variable s : HTTPServer.

(** Unfold the plumbing of a handler run. *)
Ltac handler_steps :=
  unfold run, ACLBootstrap, ACLReplicationStatus, ACLRulesTranslateLegacyToken,
    ACLPolicyList, ACLPolicyCRUD, ACLPolicyWrite, ACLTokenList, ACLTokenCRUD,
    ACLTokenWrite, ACLTokenCreate, ACLTokenClone, ACLTokenUpgrade,
    RPC_Bootstrap, RPC_TokenRead, RPC_PolicyUpsert, RPC_TokenUpsert,
    s_parse, setMeta, rpc, respond, bind, ret, initial.

Lemma checkACLDisabled_disabled req :
  ACLsEnabled (delegate s) = false ->
  run (checkACLDisabled s req)
  = (true, {| resp := [WriteHeader StatusUnauthorized; Write "ACL support disabled"];
              calls := [] |}).
Proof. unfold run, checkACLDisabled. intros ->. reflexivity. Qed.

Lemma checkACLDisabled_enabled req st :
  ACLsEnabled (delegate s) = true -> checkACLDisabled s req st = (false, st).
Proof. unfold checkACLDisabled. intros ->. reflexivity. Qed.

(** C6 (as amended).  With ACLs disabled, every endpoint that starts with
    [checkACLDisabled] answers 401 Unauthorized with the text
    [ACL support disabled], returns neither a value nor an error, and makes
    no RPC. *)
Theorem disabled_rejects req handler :
  ACLsEnabled (delegate s) = false ->
  In handler (guardedEndpoints im s) ->
  fst (run (checkACLDisabled s req)) = true
  /\ run (handler req)
     = ((Nil, None),
        {| resp := [WriteHeader StatusUnauthorized; Write "ACL support disabled"];
           calls := [] |}).
Proof.
  intros Hoff Hin. split.
  - now rewrite checkACLDisabled_disabled.
  - unfold guardedEndpoints in Hin. simpl in Hin.
    repeat (destruct Hin as [<- | Hin]);
      try contradiction;
      unfold run, ACLBootstrap, ACLReplicationStatus, ACLPolicyList, ACLPolicyCRUD,
        ACLTokenList, ACLTokenCRUD, ACLTokenCreate, ACLTokenClone, ACLTokenUpgrade,
        bind, checkACLDisabled;
      rewrite Hoff; reflexivity.
Qed.

(** C5.  When the Bootstrap RPC fails: if the error text contains the
    bootstrap-not-allowed text, the handler writes 403 Forbidden with the
    permission-denied message and returns no error; any other error is
    returned as it is, and nothing is written. *)
Theorem bootstrap_failure_classified req out e :
  ACLsEnabled (delegate s) = true ->
  Bootstrap (delegate s) (bootstrapArgs s) = (out, Some e) ->
  run (ACLBootstrap im s req) =
    if strings.Contains e (ACLBootstrapNotAllowedErr im) then
      ((Nil, None),
       {| resp := [WriteHeader StatusForbidden; Write (PermissionDeniedError im e)];
          calls := [ACL_Bootstrap (bootstrapArgs s)] |})
    else
      ((Nil, Some (Err e)),
       {| resp := []; calls := [ACL_Bootstrap (bootstrapArgs s)] |}).
Proof.
  intros Hon Hrpc.
  unfold run, ACLBootstrap, bind, RPC_Bootstrap, rpc.
  rewrite (checkACLDisabled_enabled req initial Hon).
  fold (bootstrapArgs s). rewrite Hrpc.
  destruct (strings.Contains e (ACLBootstrapNotAllowedErr im)); reflexivity.
Qed.

(** C8.  Translating the rules of a token: an empty token ID in the path is
    a bad request, before any RPC; a token the store does not have is
    [ErrNotFound]; a token without rules is the error that it has no rules
    set, whatever the translator is. *)
Theorem translate_token_nothing_to_translate req :
  (translatePathID req = "" ->
   run (ACLRulesTranslateLegacyToken im s req)
   = ((Nil, Some (BadRequestError "Missing token ID")), initial))
  /\ (forall p out,
        translatePathID req <> "" ->
        parse s req (Datacenter s) zeroOptions = p ->
        done p = false ->
        TokenReadRPC (delegate s) (translateArgs s req p) = (out, None) ->
        (resp_Token out = None ->
         fst (run (ACLRulesTranslateLegacyToken im s req)) = (Nil, Some ErrNotFound))
        /\ (forall token,
              resp_Token out = Some token -> Rules token = "" ->
              fst (run (ACLRulesTranslateLegacyToken im s req))
              = (Nil, Some (Err "The specified token does not have any rules set"))
              /\ forall im',
                   run (ACLRulesTranslateLegacyToken im' s req)
                   = run (ACLRulesTranslateLegacyToken im s req))).
Proof.
  split.
  - unfold translatePathID. intros Hempty.
    unfold run, ACLRulesTranslateLegacyToken.
    rewrite Hempty. reflexivity.
  - intros p out Hid Hparse Hdone Hrpc.
    apply String.eqb_neq in Hid. unfold translatePathID in Hid.
    assert (Hnotfound : resp_Token out = None ->
              forall im0,
                run (ACLRulesTranslateLegacyToken im0 s req)
                = ((Nil, Some ErrNotFound),
                   {| resp := parsed_written p ++ [SetMeta (tokenresp_QueryMeta out)];
                      calls := [ACL_TokenRead (translateArgs s req p)] |})).
    { intros Hnone im0. handler_steps.
      rewrite Hid, Hparse. cbn. rewrite Hdone. cbn.
      fold (translatePathID req). fold (translateArgs s req p). rewrite Hrpc, Hnone. reflexivity. }
    assert (Hnorules : forall token,
              resp_Token out = Some token -> Rules token = "" ->
              forall im0,
                run (ACLRulesTranslateLegacyToken im0 s req)
                = ((Nil, Some (Err "The specified token does not have any rules set")),
                   {| resp := parsed_written p ++ [SetMeta (tokenresp_QueryMeta out)];
                      calls := [ACL_TokenRead (translateArgs s req p)] |})).
    { intros token Hsome Hrules im0. handler_steps.
      rewrite Hid, Hparse. cbn. rewrite Hdone. cbn.
      fold (translatePathID req). fold (translateArgs s req p). rewrite Hrpc, Hsome, Hrules. reflexivity. }
    split.
    + intros Hnone. now rewrite Hnotfound.
    + intros token Hsome Hrules. split.
      * now rewrite (Hnorules token).
      * intros im'. now rewrite !(Hnorules token).
Qed.

End EndpointClaims.

Section EndpointScenarios.
Import structs agent server_scenario.

Lemma disabled_rejects_witness :
  fst (run (checkACLDisabled disabledServer postBootstrap)) = true
  /\ run (ACLBootstrap imports disabledServer postBootstrap)
     = ((Nil, None),
        {| resp := [WriteHeader 401; Write "ACL support disabled"]; calls := [] |}).
Proof.
  apply (disabled_rejects imports disabledServer postBootstrap
           (ACLBootstrap imports disabledServer)).
  - reflexivity.
  - simpl. auto.
Defined.

(** C6 (as stated) fails: with ACLs disabled the response is 401
    Unauthorized, not 403 Forbidden. *)
Lemma disabled_forbidden_counterexample :
  ACLsEnabled (delegate disabledServer) = false
  /\ resp (snd (run (ACLBootstrap imports disabledServer postBootstrap)))
     = [WriteHeader 401; Write "ACL support disabled"]
  /\ ~ In (WriteHeader StatusForbidden)
         (resp (snd (run (ACLBootstrap imports disabledServer postBootstrap)))).
Proof.
  repeat split.
  intros [H | [H | []]]; discriminate.
Qed.

Lemma bootstrap_failure_classified_witness :
  run (ACLBootstrap imports bootstrappedServer postBootstrap)
  = ((Nil, None),
     {| resp :=
          [WriteHeader 403;
           Write "Permission denied: rpc error: ACL bootstrap no longer allowed (reset index: 13)"];
        calls := [ACL_Bootstrap (bootstrapArgs bootstrappedServer)] |})
  /\ run (ACLBootstrap imports leaderlessServer postBootstrap)
     = ((Nil, Some (Err "No cluster leader")),
        {| resp := []; calls := [ACL_Bootstrap (bootstrapArgs leaderlessServer)] |}).
Proof.
  split.
  - exact (bootstrap_failure_classified imports bootstrappedServer postBootstrap
             managementToken
             "rpc error: ACL bootstrap no longer allowed (reset index: 13)"
             eq_refl eq_refl).
  - exact (bootstrap_failure_classified imports leaderlessServer postBootstrap
             managementToken "No cluster leader" eq_refl eq_refl).
Defined.

Lemma translate_token_nothing_to_translate_witness :
  run (ACLRulesTranslateLegacyToken imports emptyServer getTranslateNoID)
  = ((Nil, Some (BadRequestError "Missing token ID")), initial)
  /\ fst (run (ACLRulesTranslateLegacyToken imports emptyServer getTranslate))
     = (Nil, Some ErrNotFound)
  /\ fst (run (ACLRulesTranslateLegacyToken imports rulelessServer getTranslate))
     = (Nil, Some (Err "The specified token does not have any rules set")).
Proof.
  split; [| split].
  - apply (proj1 (translate_token_nothing_to_translate imports emptyServer
                    getTranslateNoID)).
    reflexivity.
  - refine (proj1 (proj2 (translate_token_nothing_to_translate imports emptyServer
                            getTranslate) _ _ _ eq_refl _ eq_refl) _).
    + discriminate.
    + reflexivity.
    + reflexivity.
  - refine (proj1 (proj2 (proj2 (translate_token_nothing_to_translate imports
                                   rulelessServer getTranslate)
                            _ _ _ eq_refl _ eq_refl) managementToken _ _)).
    + discriminate.
    + reflexivity.
    + reflexivity.
    + reflexivity.
Defined.

End EndpointScenarios.

Section UpdateIdentifiers.
Import structs agent.

Variable im : Imports.
Variable s : HTTPServer.

(** A token update whose payload has no Accessor ID takes the one of the
    path. *)
Lemma ACLTokenWrite_adopts req tokenID t :
  decodeBody_ACLToken im req = (t, None) ->
  AccessorID t = "" ->
  calls (snd (run (ACLTokenWrite im s req tokenID)))
  = [ACL_TokenUpsert {| tu_ACLToken := set_AccessorID t tokenID;
                        tu_Datacenter := Datacenter s;
                        tu_Token := parseToken s req "" |}].
Proof.
  intros Hdec Hempty. unfold run, ACLTokenWrite.
  rewrite Hdec, Hempty. cbn. unfold bind, RPC_TokenUpsert, rpc.
  destruct (TokenUpsert (delegate s) _) as [out [e|]]; reflexivity.
Qed.

(** A token update whose payload and path disagree is a bad request, and
    no RPC is made. *)
Lemma ACLTokenWrite_mismatch req tokenID t :
  decodeBody_ACLToken im req = (t, None) ->
  AccessorID t <> "" -> tokenID <> "" -> AccessorID t <> tokenID ->
  run (ACLTokenWrite im s req tokenID)
  = ((Nil, Some (BadRequestError "Token Accessor ID in URL and payload do not match")),
     initial).
Proof.
  intros Hdec H1 H2 H3. apply String.eqb_neq in H1, H2, H3.
  unfold run, ACLTokenWrite.
  rewrite Hdec, H1, H2, H3. reflexivity.
Qed.

(** A policy update by ID whose payload has no ID takes the one of the
    path. *)
Lemma ACLPolicyWrite_id_adopts req policyID p :
  decodeBody_Policy im req = (p, None) ->
  ID p = "" ->
  calls (snd (run (ACLPolicyWrite im s req policyID ACLPolicyID)))
  = [ACL_PolicyUpsert {| pu_Policy := set_ID (set_Syntax p SyntaxCurrent) policyID;
                         pu_Datacenter := Datacenter s;
                         pu_Token := parseToken s req "" |}].
Proof.
  intros Hdec Hempty. unfold run, ACLPolicyWrite.
  rewrite Hdec. cbn [set_Syntax ID]. rewrite Hempty.
  rewrite andb_false_r. cbn. unfold bind, RPC_PolicyUpsert, rpc.
  destruct (PolicyUpsert (delegate s) _) as [out [e|]]; reflexivity.
Qed.

Lemma ACLPolicyWrite_id_mismatch req policyID p :
  decodeBody_Policy im req = (p, None) ->
  ID p <> "" -> policyID <> "" -> ID p <> policyID ->
  run (ACLPolicyWrite im s req policyID ACLPolicyID)
  = ((Nil, Some (BadRequestError "Policy ID in URL and payload do not match")),
     initial).
Proof.
  intros Hdec H1 H2 H3. apply String.eqb_neq in H1, H2, H3.
  unfold run, ACLPolicyWrite.
  rewrite Hdec. cbn [set_Syntax ID]. rewrite H1, H2, H3. reflexivity.
Qed.

Lemma ACLPolicyWrite_name_mismatch req policyID p :
  decodeBody_Policy im req = (p, None) ->
  Name p <> "" -> policyID <> "" -> Name p <> policyID ->
  run (ACLPolicyWrite im s req policyID ACLPolicyName)
  = ((Nil, Some (BadRequestError "Policy Name in URL and payload do not match")),
     initial).
Proof.
  intros Hdec H1 H2 H3. apply String.eqb_neq in H1, H2, H3.
  unfold run, ACLPolicyWrite.
  rewrite Hdec. cbn [set_Syntax Name]. rewrite H1, H2, H3. reflexivity.
Qed.

(** A policy update by Name whose payload has no Name is sent on without a
    Name: the name of the path is not taken. *)
Lemma ACLPolicyWrite_name_stays_empty req policyID p :
  decodeBody_Policy im req = (p, None) ->
  Name p = "" ->
  calls (snd (run (ACLPolicyWrite im s req policyID ACLPolicyName)))
  = [ACL_PolicyUpsert {| pu_Policy := set_Name (set_Syntax p SyntaxCurrent) "";
                         pu_Datacenter := Datacenter s;
                         pu_Token := parseToken s req "" |}].
Proof.
  intros Hdec Hempty. unfold run, ACLPolicyWrite.
  rewrite Hdec. cbn [set_Syntax Name]. rewrite Hempty.
  rewrite andb_false_r. cbn. unfold bind, RPC_PolicyUpsert, rpc.
  destruct (PolicyUpsert (delegate s) _) as [out [e|]]; reflexivity.
Qed.

End UpdateIdentifiers.

Section UpdateByName.
Import structs agent server_scenario.

(** C4, at [PUT /v1/acl/policy/my-policy?idType=name] with a payload that
    has no Name: the claim has the policy sent to the store under the name
    [my-policy] of the path; the handler sends it with the empty Name. *)
Theorem policy_name_of_path_not_adopted :
  strings.TrimPrefix (URL_Path putPolicyByName) "/v1/acl/policy/" = "my-policy"
  /\ Name (fst (decodeBody_Policy imports putPolicyByName)) = ""
  /\ calls (snd (run (ACLPolicyCRUD imports emptyServer putPolicyByName)))
     = [ACL_PolicyUpsert
          {| pu_Policy :=
               {| ID := ""; Name := ""; policy_Description := "";
                  policy_Rules := "key_prefix {policy = read}";
                  Syntax := SyntaxCurrent |};
             pu_Datacenter := "dc1";
             pu_Token := "" |}].
Proof. repeat split. Qed.

End UpdateByName.

(* ===================================================================== *)
(** * Resolving identifier prefixes *)
(* ===================================================================== *)

Section Resolver.
Import acl.

Lemma prefix_refl (x : string) : String.prefix x x = true.
Proof.
  induction x as [|a x IH]; simpl.
  - reflexivity.
  - destruct (ascii_dec a a) as [_ | Hne]; [exact IH | now elim Hne].
Qed.

Lemma existsb_eqb_In (P : string) (S : list string) :
  existsb (String.eqb P) S = true <-> In P S.
Proof.
  rewrite existsb_exists. split.
  - intros [y [Hy Heq]]. apply String.eqb_eq in Heq. now subst.
  - intros H. exists P. split; [assumption | apply String.eqb_refl].
Qed.

Lemma filter_unique (f : string -> bool) (S : list string) (x : string) :
  NoDup S -> In x S -> f x = true ->
  (forall y, In y S -> f y = true -> y = x) ->
  filter f S = [x].
Proof.
  induction S as [|a rest IH]; intros Hnd Hin Hfx Huniq.
  - contradiction.
  - inversion Hnd as [| ? ? Hnotin Hnd']; subst.
    assert (Hrest : ~ In x rest -> filter f rest = []).
    { intros Hx. clear IH Hnd Hnd' Hnotin Hin.
      induction rest as [|b rest' IH']; [reflexivity |].
      simpl. destruct (f b) eqn:Hb.
      - exfalso. apply Hx. left.
        apply Huniq; [right; now left | exact Hb].
      - apply IH'.
        + intros y Hy. apply Huniq. destruct Hy as [-> | Hy]; [now left |].
          right. now right.
        + intros Hin. apply Hx. now right. }
    simpl. destruct Hin as [-> | Hin].
    + rewrite Hfx. f_equal. now apply Hrest.
    + destruct (f a) eqn:Hfa.
      * exfalso. apply Hnotin.
        rewrite (Huniq a (or_introl eq_refl) Hfa). exact Hin.
      * apply IH; auto. intros y Hy. apply Huniq. now right.
Qed.

(** C7.  For a non-empty prefix [P] and identifiers [S]: the one
    identifier that starts with [P] is the result when there is exactly
    one; [NotFound] when there is none; [AmbiguousIdentifier], naming
    exactly the identifiers that start with [P], when two or more do and
    none is [P] itself; and [P] whenever [P] is itself an identifier, even
    if others continue it.  Tokens and policies are resolved by the same
    function, over Accessor IDs and over policy IDs. *)
Theorem resolvePrefix_cases (P : string) (S : list string) :
  P <> "" ->
  (forall x,
      NoDup S -> In x S -> strings.HasPrefix x P = true ->
      (forall y, In y S -> strings.HasPrefix y P = true -> y = x) ->
      resolvePrefix P S = Resolved x)
  /\ ((forall x, In x S -> strings.HasPrefix x P = false) ->
      resolvePrefix P S = NotFound)
  /\ (~ In P S ->
      (exists x y, x <> y /\ In x S /\ In y S
                   /\ strings.HasPrefix x P = true /\ strings.HasPrefix y P = true) ->
      exists ids,
        resolvePrefix P S = AmbiguousIdentifier ids
        /\ forall z, In z ids <-> In z S /\ strings.HasPrefix z P = true)
  /\ (In P S -> resolvePrefix P S = Resolved P)
  /\ (forall tokens,
        GetTokenIDFromPartial tokens P
        = resolvePrefix P (map structs.AccessorID tokens))
  /\ (forall policies,
        GetPolicyIDFromPartial policies P
        = resolvePrefix P (map structs.ID policies)).
Proof.
  intros HP. apply String.eqb_neq in HP.
  assert (Hexact : In P S -> resolvePrefix P S = Resolved P).
  { intros Hin. unfold resolvePrefix. rewrite HP.
    now rewrite (proj2 (existsb_eqb_In P S) Hin). }
  assert (Hnot : ~ In P S -> existsb (String.eqb P) S = false).
  { intros Hn. destruct (existsb (String.eqb P) S) eqn:E; [| reflexivity].
    apply existsb_eqb_In in E. contradiction. }
  repeat split.
  - intros x Hnd Hin Hpre Huniq.
    destruct (in_dec string_dec P S) as [HPin | HPnot].
    + rewrite (Hexact HPin). f_equal.
      apply Huniq; [exact HPin | apply prefix_refl].
    + unfold resolvePrefix. rewrite HP, (Hnot HPnot).
      now rewrite (filter_unique (fun id => strings.HasPrefix id P) S x Hnd Hin Hpre Huniq).
  - intros Hnone. unfold resolvePrefix. rewrite HP.
    rewrite Hnot.
    + assert (Hf : filter (fun id => strings.HasPrefix id P) S = []).
      { clear Hexact Hnot. induction S as [|a rest IH]; [reflexivity |].
        simpl. rewrite (Hnone a (or_introl eq_refl)).
        apply IH. intros x Hx. apply Hnone. now right. }
      now rewrite Hf.
    + intros Hin. specialize (Hnone P Hin).
      unfold strings.HasPrefix in Hnone. rewrite prefix_refl in Hnone.
      discriminate.
  - intros HPnot (x & y & Hxy & Hx & Hy & Hpx & Hpy).
    unfold resolvePrefix. rewrite HP, (Hnot HPnot).
    assert (Hfx : In x (filter (fun id => strings.HasPrefix id P) S))
      by (apply filter_In; auto).
    assert (Hfy : In y (filter (fun id => strings.HasPrefix id P) S))
      by (apply filter_In; auto).
    destruct (filter (fun id => strings.HasPrefix id P) S) as [|a [|b rest]] eqn:Hf.
    + contradiction.
    + exfalso. apply Hxy.
      destruct Hfx as [<- | []]. destruct Hfy as [<- | []]. reflexivity.
    + eexists. split; [reflexivity |].
      intros z. rewrite <- Hf.
      exact (filter_In (fun id => strings.HasPrefix id P) z S).
  - exact Hexact.
Qed.

Lemma resolvePrefix_cases_witness :
  resolvePrefix "aaaa1" server_scenario.accessorIDs = Resolved "aaaa1111"
  /\ resolvePrefix "aaaa1" ["bbbb"] = NotFound
  /\ (exists ids,
        resolvePrefix "aaaa" server_scenario.accessorIDs = AmbiguousIdentifier ids
        /\ forall z,
             In z ids <->
             In z server_scenario.accessorIDs /\ strings.HasPrefix z "aaaa" = true)
  /\ resolvePrefix "7f1a" server_scenario.policyIDs = Resolved "7f1a".
Proof.
  assert (Hne : forall a r, String a r <> "") by discriminate.
  split; [| split; [| split]].
  - apply (proj1 (resolvePrefix_cases "aaaa1" server_scenario.accessorIDs (Hne _ _))).
    + repeat constructor; simpl; intuition discriminate.
    + simpl. auto.
    + reflexivity.
    + intros y [<- | [<- | []]] Hy; [reflexivity | discriminate].
  - apply (proj1 (proj2 (resolvePrefix_cases "aaaa1" ["bbbb"] (Hne _ _)))).
    intros x [<- | []]. reflexivity.
  - apply (proj1 (proj2 (proj2
             (resolvePrefix_cases "aaaa" server_scenario.accessorIDs (Hne _ _))))).
    + simpl. intuition discriminate.
    + exists "aaaa1111", "aaaa2222". simpl. repeat split; auto. discriminate.
  - apply (proj1 (proj2 (proj2 (proj2
             (resolvePrefix_cases "7f1a" server_scenario.policyIDs (Hne _ _)))))).
    simpl. auto.
Defined.

End Resolver.

(* ===================================================================== *)
(** * Further properties of the endpoints *)
(* ===================================================================== *)

Section EndpointInvariants.
Import structs agent endpoints.

Variable im : Imports.
Variable s : HTTPServer.

(** Run a handler through all of its branches. *)
Ltac unfold_handlers :=
  unfold run, ACLBootstrap, ACLReplicationStatus, ACLRulesTranslate,
    ACLRulesTranslateLegacyToken, ACLPolicyList, ACLPolicyCRUD, ACLPolicyCreate,
    ACLPolicyRead, ACLPolicyWrite, ACLPolicyDelete, ACLTokenList, ACLTokenCRUD,
    ACLTokenCreate, ACLTokenRead, ACLTokenWrite, ACLTokenDelete, ACLTokenSelf,
    ACLTokenClone, ACLTokenUpgrade, checkACLDisabled,
    RPC_Bootstrap, RPC_ReplicationStatus, RPC_PolicyList, RPC_PolicyRead,
    RPC_PolicyUpsert, RPC_PolicyDelete, RPC_TokenList, RPC_TokenRead,
    RPC_TokenUpsert, RPC_TokenClone, RPC_TokenUpgrade, RPC_TokenDelete,
    s_parse, setMeta, rpc, respond, bind, ret, initial.

Ltac reduce_run :=
  cbn beta iota zeta match fix
    delta [calls resp fst snd app length rejectsRequest].

Ltac branches :=
  unfold_handlers; reduce_run;
  repeat match goal with
         | |- context [match ?x with _ => _ end] =>
             lazymatch x with
             | context [match _ with _ => _ end] => fail
             | _ => destruct x; reduce_run
             end
         end.

(** Whenever an endpoint answers with a bad-request or a
    method-not-allowed error, it has made no RPC: requests are rejected
    before the store is reached. *)
Theorem rejected_requests_reach_no_store handler req :
  In handler (all im s) ->
  rejectsRequest (snd (fst (run (handler req)))) = true ->
  calls (snd (run (handler req))) = [].
Proof.
  unfold all. intros Hin.
  repeat (destruct Hin as [<- | Hin]); try contradiction;
    branches; intros; try reflexivity; try discriminate.
Qed.

(** No endpoint makes more than one RPC for a request. *)
Theorem at_most_one_rpc handler req :
  In handler (all im s) ->
  length (calls (snd (run (handler req)))) <= 1.
Proof.
  unfold all. intros Hin.
  repeat (destruct Hin as [<- | Hin]); try contradiction;
    branches; auto.
Qed.

Ltac branches_eqn :=
  unfold_handlers; reduce_run;
  repeat match goal with
         | |- context [match ?x with _ => _ end] =>
             lazymatch x with
             | context [match _ with _ => _ end] => fail
             | _ => destruct x eqn:?; reduce_run
             end
         end.

(** The one call of a run, if there is one. *)
Ltac the_call c Hin :=
  intros c Hin; cbn [In] in Hin;
  first [ contradiction
        | destruct Hin as [<- | Hin]; [| contradiction] ].

(** Every write an endpoint sends to the store (upsert, delete, clone,
    upgrade) names the agent's own datacenter and carries the token that
    [parseToken] takes from the request. *)
Theorem writes_carry_the_credential handler req call dc token :
  In handler (all im s) ->
  In call (calls (snd (run (handler req)))) ->
  writeCredential call = Some (dc, token) ->
  dc = Datacenter s /\ token = parseToken s req "".
Proof.
  unfold all. intros Hin. revert call.
  repeat (destruct Hin as [<- | Hin]); try contradiction;
    branches; the_call call Hc; cbn; intros H;
    try discriminate; injection H as <- <-; split; reflexivity.
Qed.

Lemma defaultDatacenter_nonempty dc :
  Datacenter s <> "" -> defaultDatacenter s dc <> "".
Proof.
  intros Hs. unfold defaultDatacenter.
  destruct (dc =? "")%string eqn:E; [exact Hs |].
  now apply String.eqb_neq.
Qed.

(** When the agent is configured with a datacenter, every list or read
    query an endpoint sends names a datacenter: an empty one is replaced by
    the agent's. *)
Theorem queries_name_a_datacenter handler req call dc :
  Datacenter s <> "" ->
  In handler (all im s) ->
  In call (calls (snd (run (handler req)))) ->
  queryDatacenter call = Some dc ->
  dc <> "".
Proof.
  unfold all. intros Hs Hin. revert call.
  repeat (destruct Hin as [<- | Hin]); try contradiction;
    branches; the_call call Hc; cbn; intros H;
    try discriminate; injection H as <-;
    now apply defaultDatacenter_nonempty.
Qed.

(** After a list or read query, whether it fails, finds nothing or
    succeeds, the last thing written to the response is the query metadata
    the store replied with (the deferred [setMeta]). *)
Theorem metadata_follows_every_query handler req call m :
  In handler (all im s) ->
  In call (calls (snd (run (handler req)))) ->
  repliedMeta s call = Some m ->
  exists written, resp (snd (run (handler req))) = written ++ [SetMeta m].
Proof.
  unfold all. intros Hin. revert call.
  repeat (destruct Hin as [<- | Hin]); try contradiction;
    branches_eqn; the_call call Hc; cbn [repliedMeta]; intros H;
    try discriminate; injection H as <-;
    match goal with
    | E : _ = (_, _) |- context [fst ?x] =>
        match type of E with x = _ => rewrite E end
    end;
    cbn [fst]; eexists; reflexivity.
Qed.

Lemma eqb_false_eq (a b : string) :
  a <> "" -> negb (a =? "")%string && negb (b =? a)%string = false -> b = a.
Proof.
  intros Ha H. apply String.eqb_neq in Ha. rewrite Ha in H. cbn in H.
  apply negb_false_iff in H. now apply String.eqb_eq.
Qed.

(** A token write with an ID in its path, a clone and an upgrade reach the
    store only for the token of the path: the Accessor ID sent equals the
    path ID, and for clone and upgrade the path ID is never empty. *)
Theorem path_names_the_token req args :
  (In (ACL_TokenUpsert args) (calls (snd (run (ACLTokenCRUD im s req)))) ->
   tokenPathID req <> "" ->
   AccessorID (tu_ACLToken args) = tokenPathID req)
  /\ (In (ACL_TokenClone args) (calls (snd (run (ACLTokenClone im s req)))) ->
      clonePathID req <> "" /\ AccessorID (tu_ACLToken args) = clonePathID req)
  /\ (In (ACL_TokenUpgrade args) (calls (snd (run (ACLTokenUpgrade im s req)))) ->
      upgradePathID req <> ""
      /\ AccessorID (tu_ACLToken args) = upgradePathID req).
Proof.
  unfold tokenPathID, clonePathID, upgradePathID.
  split; [| split].
  - branches_eqn; cbn [In]; intros Hin; try contradiction;
      destruct Hin as [Hin | []]; try discriminate;
      injection Hin as <-; intros Hid; cbn;
      first [reflexivity | now apply eqb_false_eq].
  - branches_eqn; cbn [In]; intros Hin; try contradiction;
      destruct Hin as [Hin | []]; injection Hin as <-;
      (split; [now apply String.eqb_neq | reflexivity]).
  - branches_eqn; cbn [In]; intros Hin; try contradiction;
      destruct Hin as [Hin | []]; injection Hin as <-;
      (split; [now apply String.eqb_neq | cbn]);
      first [reflexivity
            | match goal with
              | H : negb false && negb _ = false |- _ =>
                  cbn in H; apply negb_false_iff in H; now apply String.eqb_eq in H
              end].
Qed.

(** When the RPC of an endpoint fails, the endpoint returns that error as
    it is and no value; the one exception is a Bootstrap error that says
    bootstrapping is no longer allowed, which is answered in the response
    instead. *)
Theorem store_errors_pass_through handler req call e :
  In handler (all im s) ->
  In call (calls (snd (run (handler req)))) ->
  storeError s call = Some e ->
  fst (run (handler req)) = (Nil, Some (Err e))
  \/ (isBootstrap call = true
      /\ strings.Contains e (ACLBootstrapNotAllowedErr im) = true
      /\ fst (run (handler req)) = (Nil, None)).
Proof.
  unfold all. intros Hin. revert call.
  repeat (destruct Hin as [<- | Hin]); try contradiction;
    branches_eqn; the_call call Hc; cbn [storeError isBootstrap]; intros H;
    match goal with
    | E : ?x = (_, _) |- _ =>
        match type of H with context [x] => rewrite E in H end
    end;
    cbn [snd] in H; subst; try discriminate;
    injection H as <-; auto.
Qed.

(** An endpoint that returns an error returns no value with it. *)
Theorem no_value_with_an_error handler req :
  In handler (all im s) ->
  snd (fst (run (handler req))) <> None ->
  fst (fst (run (handler req))) = Nil.
Proof.
  unfold all. intros Hin.
  repeat (destruct Hin as [<- | Hin]); try contradiction;
    branches; intros H; try reflexivity; now elim H.
Qed.

(** The policy an endpoint upserts has the current syntax version whatever
    the payload says; its Name, Rules and Description are the payload's; its
    ID is the payload's, or, when the payload has none, that of the path or
    empty. *)
Theorem policy_upsert_payload handler req args :
  In handler (all im s) ->
  In (ACL_PolicyUpsert args) (calls (snd (run (handler req)))) ->
  let decoded := fst (decodeBody_Policy im req) in
  Syntax (pu_Policy args) = SyntaxCurrent
  /\ Name (pu_Policy args) = Name decoded
  /\ policy_Rules (pu_Policy args) = policy_Rules decoded
  /\ policy_Description (pu_Policy args) = policy_Description decoded
  /\ (ID (pu_Policy args) = ID decoded
      \/ (ID decoded = "" /\ ID (pu_Policy args) = policyPathID req)
      \/ (ID decoded = "" /\ ID (pu_Policy args) = "")).
Proof.
  unfold all, policyPathID. intros Hin.
  repeat (destruct Hin as [<- | Hin]); try contradiction;
    branches_eqn; cbn [In]; intros Hc; try contradiction;
    destruct Hc as [Hc | []]; try discriminate;
    injection Hc as <-;
    cbn in *;
    repeat match goal with
           | H : (_ =? _)%string = true |- _ => apply String.eqb_eq in H
           end;
    repeat split; auto.
Qed.

(** [ACLBootstrap] returns a token only from a successful Bootstrap RPC,
    with the token's Secret ID as the response's ID and nothing written to
    the response; it writes 403 only after a Bootstrap RPC that failed with
    the not-allowed text. *)
Theorem bootstrap_outcomes req :
  (forall r,
      fst (fst (run (ACLBootstrap im s req))) = BootstrapResponse r ->
      ACLsEnabled (delegate s) = true
      /\ Bootstrap (delegate s) (bootstrapArgs s) = (bootstrap_ACLToken r, None)
      /\ bootstrap_ID r = SecretID (bootstrap_ACLToken r)
      /\ snd (run (ACLBootstrap im s req))
         = {| resp := []; calls := [ACL_Bootstrap (bootstrapArgs s)] |})
  /\ (In (WriteHeader StatusForbidden) (resp (snd (run (ACLBootstrap im s req)))) ->
      ACLsEnabled (delegate s) = true
      /\ exists out e,
           Bootstrap (delegate s) (bootstrapArgs s) = (out, Some e)
           /\ strings.Contains e (ACLBootstrapNotAllowedErr im) = true).
Proof.
  unfold bootstrapArgs. split.
  - intros r. branches_eqn; intros H; try discriminate.
    injection H as <-. cbn. subst. auto.
  - branches_eqn; cbn [In]; intros H; subst.
    + split; [reflexivity |]. eauto.
    + contradiction.
    + contradiction.
    + destruct H as [H | [H | []]]; discriminate.
Qed.

(** How tokens are looked up: the rules-translation endpoint and the token
    endpoint read by Accessor ID, with the non-empty ID of the path, the
    former with [MinQueryIndex] 0; [ACLTokenSelf] reads by Secret ID, with
    the token of the request itself. *)
Theorem token_lookups req args :
  (In (ACL_TokenRead args)
      (calls (snd (run (ACLRulesTranslateLegacyToken im s req)))) ->
   tr_TokenID args = translatePathID req
   /\ tr_TokenID args <> ""
   /\ tr_TokenIDType args = ACLTokenAccessor
   /\ MinQueryIndex (tr_QueryOptions args) = 0%Z)
  /\ (In (ACL_TokenRead args) (calls (snd (run (ACLTokenCRUD im s req)))) ->
      tr_TokenID args = tokenPathID req
      /\ tr_TokenID args <> ""
      /\ tr_TokenIDType args = ACLTokenAccessor)
  /\ (In (ACL_TokenRead args) (calls (snd (run (ACLTokenSelf s req)))) ->
      tr_TokenID args = Token (tr_QueryOptions args)
      /\ tr_TokenIDType args = ACLTokenSecret).
Proof.
  unfold translatePathID, tokenPathID.
  split; [| split];
    branches_eqn; cbn [In]; intros H; try contradiction;
    destruct H as [H | []]; try discriminate; injection H as <-; cbn;
    repeat split; try (now apply String.eqb_neq).
  all: match goal with
       | Hm : (Method ?r =? "GET")%string = true,
         H : (?x =? "")%string && negb (Method ?r =? "PUT")%string = false
         |- ?x <> "" =>
           apply String.eqb_eq in Hm; rewrite Hm in H;
           change ("GET" =? "PUT")%string with false in H; cbn [negb] in H;
           rewrite andb_true_r in H; now apply String.eqb_neq
       end.
Qed.

(** [ACLRulesTranslate] makes no RPC.  Without an error it writes exactly
    the translation of the body; with an error, which is a bad-request
    error, it writes nothing. *)
Theorem translate_is_local req :
  calls (snd (run (ACLRulesTranslate im req))) = []
  /\ (snd (fst (run (ACLRulesTranslate im req))) = None ->
      resp (snd (run (ACLRulesTranslate im req)))
      = [Write (fst (TranslateLegacyRules im (fst (ReadAll im req))))])
  /\ (snd (fst (run (ACLRulesTranslate im req))) <> None ->
      resp (snd (run (ACLRulesTranslate im req))) = []
      /\ rejectsRequest (snd (fst (run (ACLRulesTranslate im req)))) = true).
Proof.
  unfold_handlers. reduce_run.
  destruct (ReadAll im req) as [bytes [e|]]; reduce_run.
  - split; [reflexivity | split; [discriminate | intros _; split; reflexivity]].
  - destruct (TranslateLegacyRules im bytes) as [translated [e|]]; reduce_run.
    + split; [reflexivity | split; [discriminate | intros _; split; reflexivity]].
    + split; [reflexivity | split; [intros _; reflexivity |]].
      intros Herr. now elim Herr.
Qed.

(** [ACLTokenClone] accepts a body that cannot be decoded because it is
    empty ([EOF]) and clones the token of the path; any other decoding error
    is a bad request without an RPC.  [ACLTokenWrite] rejects the empty body
    too. *)
Theorem clone_body req t e :
  ACLsEnabled (delegate s) = true ->
  clonePathID req <> "" ->
  decodeBody_ACLToken im req = (t, Some e) ->
  (e = "EOF" ->
   calls (snd (run (ACLTokenClone im s req)))
   = [ACL_TokenClone {| tu_ACLToken := set_AccessorID t (clonePathID req);
                        tu_Datacenter := Datacenter s;
                        tu_Token := parseToken s req "" |}])
  /\ (e <> "EOF" ->
      run (ACLTokenClone im s req)
      = ((Nil, Some (BadRequestError ("Token decoding failed: " +:+ e))), initial))
  /\ run (ACLTokenWrite im s req (clonePathID req))
     = ((Nil, Some (BadRequestError ("Token decoding failed: " +:+ e))), initial).
Proof.
  unfold clonePathID. intros Hon Hid Hdec. apply String.eqb_neq in Hid.
  split; [| split].
  - intros ->. unfold_handlers. rewrite Hon. reduce_run.
    rewrite Hid, Hdec. reduce_run. cbn.
    destruct (TokenClone (delegate s) _) as [out [err|]]; reflexivity.
  - intros Hne. apply String.eqb_neq in Hne.
    unfold_handlers. rewrite Hon. reduce_run.
    rewrite Hid, Hdec. reduce_run. rewrite Hne. reflexivity.
  - unfold_handlers. rewrite Hdec. reflexivity.
Qed.

Lemma HasPrefix_app (p x : string) : strings.HasPrefix (p +:+ x) p = true.
Proof.
  unfold strings.HasPrefix. induction p as [|a p IH]; cbn.
  - now destruct x.
  - destruct (ascii_dec a a) as [_ | Hne]; [exact IH | now elim Hne].
Qed.

Lemma drop_app (p x : string) : strings.drop (String.length p) (p +:+ x) = x.
Proof. induction p as [|a p IH]; cbn; [reflexivity | exact IH]. Qed.

Lemma TrimPrefix_app (p x : string) : strings.TrimPrefix (p +:+ x) p = x.
Proof. unfold strings.TrimPrefix. now rewrite HasPrefix_app, drop_app. Qed.

Ltac string_facts :=
  repeat match goal with
         | H : (_ =? _)%string = true |- _ => apply String.eqb_eq in H
         | H : (_ =? _)%string = false |- _ => apply String.eqb_neq in H
         end.

(** What a request to [/v1/acl/policy/<id>] can reach: a read only for
    GET and a delete only for DELETE, both for the non-empty [<id>] and the
    ID type of the [idType] parameter; an upsert only for PUT; nothing
    else. *)
Theorem policy_routes req id call :
  URL_Path req = "/v1/acl/policy/" +:+ id ->
  In call (calls (snd (run (ACLPolicyCRUD im s req)))) ->
  match call with
  | ACL_PolicyRead args =>
      Method req = "GET" /\ id <> ""
      /\ pr_PolicyID args = id /\ pr_PolicyIDType args = idTypeOf req
  | ACL_PolicyDelete args =>
      Method req = "DELETE" /\ id <> ""
      /\ pd_PolicyID args = id /\ pd_PolicyIDType args = idTypeOf req
  | ACL_PolicyUpsert args => Method req = "PUT"
  | _ => False
  end.
Proof.
  intros Hpath. unfold idTypeOf. revert call. unfold_handlers.
  rewrite Hpath, TrimPrefix_app.
  branches_eqn; the_call call Hc; cbn;
    repeat match goal with
           | H : _ && negb _ = false |- _ =>
               apply andb_false_iff in H; destruct H as [H | H];
               [| apply negb_false_iff in H]
           end;
    string_facts; repeat split; congruence.
Qed.

(** What a request to [/v1/acl/token/<id>] can reach: a read only for GET
    and a delete only for DELETE, both for the non-empty [<id>]; an upsert
    only for PUT; nothing else. *)
Theorem token_routes req id call :
  URL_Path req = "/v1/acl/token/" +:+ id ->
  In call (calls (snd (run (ACLTokenCRUD im s req)))) ->
  match call with
  | ACL_TokenRead args =>
      Method req = "GET" /\ id <> "" /\ tr_TokenID args = id
  | ACL_TokenDelete args =>
      Method req = "DELETE" /\ id <> "" /\ td_TokenID args = id
  | ACL_TokenUpsert args => Method req = "PUT"
  | _ => False
  end.
Proof.
  intros Hpath. revert call. unfold_handlers.
  rewrite Hpath, TrimPrefix_app.
  branches_eqn; the_call call Hc; cbn;
    repeat match goal with
           | H : _ && negb _ = false |- _ =>
               apply andb_false_iff in H; destruct H as [H | H];
               [| apply negb_false_iff in H]
           end;
    string_facts; repeat split; congruence.
Qed.

(** With ACLs enabled, the token and policy endpoints reject, without an
    RPC: any method other than GET, PUT and DELETE; a GET or DELETE without
    an ID in the path; and an [idType] other than [id] and [name]. *)
Theorem crud_rejections req :
  ACLsEnabled (delegate s) = true ->
  (~ In (Method req) ["GET"; "PUT"; "DELETE"] ->
   run (ACLTokenCRUD im s req)
   = ((Nil, Some (MethodNotAllowedError (Method req) ["GET"; "PUT"; "DELETE"])),
      initial)
   /\ run (ACLPolicyCRUD im s req)
      = ((Nil, Some (MethodNotAllowedError (Method req) ["GET"; "PUT"; "DELETE"])),
         initial))
  /\ (In (Method req) ["GET"; "DELETE"] ->
      (tokenPathID req = "" ->
       run (ACLTokenCRUD im s req)
       = ((Nil, Some (BadRequestError "Missing token ID")), initial))
      /\ (policyPathID req = "" ->
          run (ACLPolicyCRUD im s req)
          = ((Nil, Some (BadRequestError "Missing policy ID")), initial)))
  /\ (In (Method req) ["GET"; "PUT"; "DELETE"] ->
      policyPathID req <> "" \/ Method req = "PUT" ->
      ~ In (Query_Get (URL_Query req) "idType") [""; "id"; "name"] ->
      run (ACLPolicyCRUD im s req)
      = ((Nil, Some (BadRequestError "Invalid value for idType parameter")),
         initial)).
Proof.
  unfold tokenPathID, policyPathID. intros Hon. split; [| split].
  - intros Hm.
    assert (H1 : (Method req =? "GET")%string = false)
      by (apply String.eqb_neq; intros E; apply Hm; rewrite E; cbn; auto).
    assert (H2 : (Method req =? "PUT")%string = false)
      by (apply String.eqb_neq; intros E; apply Hm; rewrite E; cbn; auto).
    assert (H3 : (Method req =? "DELETE")%string = false)
      by (apply String.eqb_neq; intros E; apply Hm; rewrite E; cbn; auto).
    unfold_handlers. rewrite Hon. reduce_run. rewrite H1, H2, H3. auto.
  - intros Hm. split; intros Hid; unfold_handlers; rewrite Hon; reduce_run;
      rewrite Hid; destruct Hm as [<- | [<- | []]]; reflexivity.
  - intros Hm Hid Hty.
    assert (H1 : (Query_Get (URL_Query req) "idType" =? "")%string = false)
      by (apply String.eqb_neq; intros E; apply Hty; rewrite E; cbn; auto).
    assert (H2 : (Query_Get (URL_Query req) "idType" =? "id")%string = false)
      by (apply String.eqb_neq; intros E; apply Hty; rewrite E; cbn; auto).
    assert (H3 : (Query_Get (URL_Query req) "idType" =? "name")%string = false)
      by (apply String.eqb_neq; intros E; apply Hty; rewrite E; cbn; auto).
    assert (Hgo : (strings.TrimPrefix (URL_Path req) "/v1/acl/policy/" =? "")%string
                  && negb (Method req =? "PUT")%string = false).
    { destruct Hid as [Hid | Hid].
      - apply String.eqb_neq in Hid. now rewrite Hid.
      - rewrite Hid. apply andb_false_r. }
    unfold_handlers. rewrite Hon. reduce_run. rewrite Hgo, H1, H2, H3.
    destruct Hm as [<- | [<- | [<- | []]]]; reflexivity.
Qed.

(** [ACLPolicyCreate], [ACLRulesTranslateLegacyToken] and [ACLTokenSelf]
    do not look at whether ACLs are enabled: the run is the same either
    way. *)
Theorem not_gated enabled req :
  run (ACLPolicyCreate im (withACLs enabled s) req) = run (ACLPolicyCreate im s req)
  /\ run (ACLRulesTranslateLegacyToken im (withACLs enabled s) req)
     = run (ACLRulesTranslateLegacyToken im s req)
  /\ run (ACLTokenSelf (withACLs enabled s) req) = run (ACLTokenSelf s req).
Proof. repeat split. Qed.

End EndpointInvariants.

(* ===================================================================== *)
(** * [fixCreateTime] *)
(* ===================================================================== *)

Section FixCreateTime.
Import decode.

Variable time_Parse : string -> string + Z.

Lemma lookup_assign_same key v m : lookup key (assign key v m) = Some v.
Proof.
  induction m as [|[k x] rest IH]; cbn.
  - now rewrite String.eqb_refl.
  - destruct (k =? key)%string eqn:E; cbn; now rewrite E.
Qed.

Lemma lookup_assign_other key key' v m :
  key' <> key -> lookup key' (assign key v m) = lookup key' m.
Proof.
  intros Hne. induction m as [|[k x] rest IH]; cbn.
  - destruct (key =? key')%string eqn:E; [| reflexivity].
    apply String.eqb_eq in E. now elim Hne.
  - destruct (k =? key)%string eqn:E; cbn.
    + apply String.eqb_eq in E. subst k.
      destruct (key =? key')%string eqn:E'; [| reflexivity].
      apply String.eqb_eq in E'. now elim Hne.
    + now rewrite IH.
Qed.

Lemma keys_assign_present key v m :
  lookup key m <> None -> map fst (assign key v m) = map fst m.
Proof.
  induction m as [|[k x] rest IH]; cbn; intros H.
  - now elim H.
  - destruct (k =? key)%string; cbn; [reflexivity |].
    now rewrite IH.
Qed.

(** A body whose [CreateTime] is a string that parses gets the parsed time
    there; every other key keeps its value, and the keys stay as they
    were. *)
Theorem fixCreateTime_sets_time m sval t :
  lookup "CreateTime" m = Some (RawString sval) ->
  time_Parse sval = inr t ->
  exists m',
    fixCreateTime time_Parse (RawMap m) = (RawMap m', None)
    /\ lookup "CreateTime" m' = Some (RawTime t)
    /\ (forall key, key <> "CreateTime" -> lookup key m' = lookup key m)
    /\ map fst m' = map fst m.
Proof.
  intros Hlook Hparse. unfold fixCreateTime. rewrite Hlook, Hparse.
  eexists. split; [reflexivity |]. split; [apply lookup_assign_same |].
  split.
  - intros key Hne. now apply lookup_assign_other.
  - apply keys_assign_present. rewrite Hlook. discriminate.
Qed.

(** An error comes only from a [CreateTime] string that does not parse; it
    is the parser's error, and the body is left as it was. *)
Theorem fixCreateTime_error r err :
  snd (fixCreateTime time_Parse r) = Some err ->
  fst (fixCreateTime time_Parse r) = r
  /\ exists m sval,
       r = RawMap m
       /\ lookup "CreateTime" m = Some (RawString sval)
       /\ time_Parse sval = inl err.
Proof.
  unfold fixCreateTime.
  destruct r as [| | | | | |m]; try discriminate.
  destruct (lookup "CreateTime" m) as [[| | |sval| | |]|] eqn:Hlook;
    try discriminate.
  destruct (time_Parse sval) as [e | t] eqn:Hparse; [| discriminate].
  cbn. intros H. injection H as <-. split; [reflexivity |].
  exists m, sval. auto.
Qed.

(** Without an error the body changes only in the case above, and fixing a
    fixed body changes nothing more. *)
Theorem fixCreateTime_idempotent r :
  snd (fixCreateTime time_Parse r) = None ->
  fixCreateTime time_Parse (fst (fixCreateTime time_Parse r))
  = (fst (fixCreateTime time_Parse r), None).
Proof.
  unfold fixCreateTime.
  destruct r as [| | | | | |m]; try reflexivity.
  destruct (lookup "CreateTime" m) as [[| | |sval| | |]|] eqn:Hlook;
    cbn; try (rewrite Hlook; reflexivity).
  destruct (time_Parse sval) as [e | t]; [discriminate |].
  cbn. now rewrite lookup_assign_same.
Qed.

End FixCreateTime.

(* ===================================================================== *)
(** * Further properties of [consul acl token update] *)
(* ===================================================================== *)

Section CommandInvariants.
Import api tokenupdate reconciler commandline.

Lemma reconcile_closed client c links :
  reconcile client c links =
  match resolveAll client (policyIDs c) with
  | inl msg => inl msg
  | inr rids =>
      inr (if mergePolicies c then
             appendMissing ID IDLink rids
               (appendMissing Name NameLink (policyNames c) links)
           else map NameLink (policyNames c) ++ map IDLink rids)
  end.
Proof.
  unfold reconcile. destruct (mergePolicies c).
  - now rewrite mergeIDs_appendMissing, mergeNames_appendMissing.
  - rewrite replaceIDs_app, replaceNames_app. reflexivity.
Qed.

(** Whatever a run sends has the Accessor ID, Secret ID, locality, creation
    time and rules of the token it read; the description is the one of the
    command line and the links are the reconciled ones. *)
Theorem update_keeps_the_rest e args sentToken :
  sent (Run e args) = Some sentToken ->
  exists c client id token,
    Parse e init args = Some c
    /\ APIClient e (http c) = inr client
    /\ GetTokenIDFromPartial client (tokenID c) = (id, None)
    /\ TokenRead client id = inr token
    /\ AccessorID sentToken = AccessorID token
    /\ SecretID sentToken = SecretID token
    /\ Local sentToken = Local token
    /\ CreateTime sentToken = CreateTime token
    /\ Rules sentToken = Rules token
    /\ Description sentToken = description c
    /\ reconcile client c (Policies token) = inr (Policies sentToken).
Proof.
  unfold Run. destruct (Parse e init args) as [c|]; [| discriminate].
  unfold runParsed.
  destruct (tokenID c =? "")%string; [discriminate |].
  destruct (APIClient e (http c)) as [err | client] eqn:Hclient; [discriminate |].
  destruct (GetTokenIDFromPartial client (tokenID c)) as [id [err|]] eqn:Hid;
    [discriminate |].
  destruct (TokenRead client id) as [err | token] eqn:Hread; [discriminate |].
  cbn [Policies set_Description].
  destruct (reconcile client c (Policies token)) as [msg | links] eqn:Hlinks;
    [discriminate |].
  intros Hsent.
  assert (sentToken = set_Policies (set_Description token (description c)) links)
    as -> by (destruct (TokenUpdate client _); cbn in Hsent; congruence).
  exists c, client, id, token. cbn. repeat split; auto.
Qed.

(** If a requested policy ID does not resolve, in either mode, the run
    exits with 1 and sends nothing. *)
Theorem unresolved_policy_stops_the_update e args c client msg :
  Parse e init args = Some c ->
  APIClient e (http c) = inr client ->
  resolveAll client (policyIDs c) = inl msg ->
  sent (Run e args) = None /\ code (Run e args) = 1%Z.
Proof.
  intros Hparse Hclient Hres. unfold Run. rewrite Hparse. unfold runParsed.
  destruct (tokenID c =? "")%string; [split; reflexivity |].
  rewrite Hclient.
  destruct (GetTokenIDFromPartial client (tokenID c)) as [id [err|]];
    [split; reflexivity |].
  destruct (TokenRead client id) as [err | token]; [split; reflexivity |].
  rewrite reconcile_closed, Hres. split; reflexivity.
Qed.

(** After a reconciliation, in either mode, every requested name is the
    Name of a link and every resolved ID is the ID of a link. *)
Theorem requested_policies_are_linked client c links new :
  reconcile client c links = inr new ->
  (forall n, In n (policyNames c) -> foundName new n = true)
  /\ (forall rids i,
        resolveAll client (policyIDs c) = inr rids ->
        In i rids -> foundID new i = true).
Proof.
  rewrite reconcile_closed.
  destruct (resolveAll client (policyIDs c)) as [msg | rids]; [discriminate |].
  intros H. injection H as <-. destruct (mergePolicies c).
  - split.
    + intros n Hn. unfold foundName.
      apply appendMissing_keeps; [reflexivity |].
      fold (foundName (appendMissing Name NameLink (policyNames c) links) n).
      rewrite foundName_mem. now apply appendMissing_found.
    + intros rids' i Hr Hi. injection Hr as <-.
      rewrite foundID_mem. now apply appendMissing_found.
  - split.
    + intros n Hn. rewrite foundName_mem, map_app, mem_app.
      apply orb_true_iff. left. apply mem_In.
      rewrite map_map. cbn. now rewrite map_id.
    + intros rids' i Hr Hi. injection Hr as <-.
      rewrite foundID_mem, map_app, mem_app.
      apply orb_true_iff. right. apply mem_In.
      rewrite map_map. cbn. now rewrite map_id.
Qed.

(** On a token without links, merging and replacing give the same links
    when no name and no resolved ID is requested twice and no resolved ID is
    empty. *)
Theorem merge_into_nothing_is_replace client c c' rids :
  mergePolicies c = true -> mergePolicies c' = false ->
  policyNames c' = policyNames c -> policyIDs c' = policyIDs c ->
  resolveAll client (policyIDs c) = inr rids ->
  NoDup (policyNames c) -> NoDup rids -> ~ In "" rids ->
  reconcile client c [] = reconcile client c' [].
Proof.
  intros Hm Hm' Hnames Hids Hres Hnd Hnd' Hempty.
  rewrite !reconcile_closed, Hm, Hm', Hnames, Hids, Hres. f_equal.
  rewrite (appendMissing_closed ID IDLink) by reflexivity.
  rewrite (appendMissing_closed Name NameLink) by reflexivity.
  cbn [map app].
  rewrite (firsts_fresh (policyNames c) []) by (auto; reflexivity).
  f_equal. f_equal. apply firsts_fresh; [assumption |].
  intros i Hi. apply mem_NameLink_IDs. intros ->. contradiction.
Qed.

Lemma setFlag_fields e c name value c' :
  setFlag e c (name, value) = Some c' ->
  policyNames c' = policyNames c ++ flagValues "policy-name" [(name, value)]
  /\ policyIDs c' = policyIDs c ++ flagValues "policy-id" [(name, value)]
  /\ tokenID c' = flagValue "id" (tokenID c) [(name, value)].
Proof.
  unfold setFlag, flagValues, flagValue. cbn [filter map fold_left fst snd].
  destruct (name =? "merge-policies")%string eqn:E1.
  { apply String.eqb_eq in E1. subst name.
    destruct (ParseBool value); [| discriminate].
    intros H. injection H as <-. cbn. now rewrite !app_nil_r. }
  destruct (name =? "id")%string eqn:E2.
  { apply String.eqb_eq in E2. subst name.
    intros H. injection H as <-. cbn. now rewrite !app_nil_r. }
  destruct (name =? "description")%string eqn:E3.
  { apply String.eqb_eq in E3. subst name.
    intros H. injection H as <-. cbn. now rewrite !app_nil_r. }
  destruct (name =? "policy-id")%string eqn:E4.
  { apply String.eqb_eq in E4. subst name.
    intros H. injection H as <-. cbn. now rewrite !app_nil_r. }
  destruct (name =? "policy-name")%string eqn:E5.
  { intros H. injection H as <-. cbn. now rewrite !app_nil_r. }
  destruct (existsb (String.eqb name) (httpFlagNames e)); [| discriminate].
  intros H. injection H as <-. cbn. now rewrite !app_nil_r.
Qed.

Lemma Parse_fields e args c0 c :
  Parse e c0 args = Some c ->
  policyNames c = policyNames c0 ++ flagValues "policy-name" args
  /\ policyIDs c = policyIDs c0 ++ flagValues "policy-id" args
  /\ tokenID c = flagValue "id" (tokenID c0) args.
Proof.
  revert c0. induction args as [|[name value] rest IH]; intros c0; cbn [Parse].
  - intros H. injection H as <-. cbn. now rewrite !app_nil_r.
  - destruct (setFlag e c0 (name, value)) as [c1|] eqn:Hset; [| discriminate].
    intros H. destruct (IH _ H) as (Hn & Hi & Ht).
    destruct (setFlag_fields _ _ _ _ _ Hset) as (Hn1 & Hi1 & Ht1).
    rewrite Hn, Hi, Ht, Hn1, Hi1, Ht1, <- !app_assoc.
    unfold flagValues, flagValue. cbn [filter map fold_left fst snd].
    repeat split;
      destruct (name =? "policy-name")%string, (name =? "policy-id")%string;
      reflexivity.
Qed.

(** Repeated [-policy-name] and [-policy-id] flags are collected in the
    order of the command line; of repeated [-id] flags the last one
    counts. *)
Theorem flags_accumulate e args c :
  Parse e init args = Some c ->
  policyNames c = flagValues "policy-name" args
  /\ policyIDs c = flagValues "policy-id" args
  /\ tokenID c = flagValue "id" "" args.
Proof. intros H. exact (Parse_fields e args init c H). Qed.

(** A run exits with 0 or 1.  With 0 it has sent a token, the update has
    answered, and it prints the success line and the token the update
    returned; with 1 it prints one error, or nothing when the flags did not
    parse. *)
Theorem exit_code_and_output e args :
  (code (Run e args) = 0%Z \/ code (Run e args) = 1%Z)
  /\ (code (Run e args) = 0%Z ->
      exists c client sentToken returned,
        Parse e init args = Some c
        /\ APIClient e (http c) = inr client
        /\ sent (Run e args) = Some sentToken
        /\ TokenUpdate client sentToken = inr returned
        /\ ui (Run e args)
           = [UIInfo "Token updated successfully."; PrintToken returned true])
  /\ (code (Run e args) = 1%Z ->
      ui (Run e args) = [] \/ exists msg, ui (Run e args) = [UIError msg]).
Proof.
  assert (Hfail : forall o : Outcome,
             code o = 1%Z ->
             (ui o = [] \/ exists msg, ui o = [UIError msg]) ->
             (code o = 0%Z \/ code o = 1%Z)
             /\ (code o = 0%Z ->
                 exists c client sentToken returned,
                   Parse e init args = Some c
                   /\ APIClient e (http c) = inr client
                   /\ sent o = Some sentToken
                   /\ TokenUpdate client sentToken = inr returned
                   /\ ui o = [UIInfo "Token updated successfully.";
                              PrintToken returned true])
             /\ (code o = 1%Z -> ui o = [] \/ exists msg, ui o = [UIError msg])).
  { intros o Hcode Hui. split; [now right |]. split; [| auto].
    rewrite Hcode. discriminate. }
  unfold Run. destruct (Parse e init args) as [c|];
    [| apply Hfail; [reflexivity | now left]].
  unfold runParsed.
  destruct (tokenID c =? "")%string;
    [apply Hfail; [reflexivity | right; eexists; reflexivity] |].
  destruct (APIClient e (http c)) as [err | client] eqn:Hclient;
    [apply Hfail; [reflexivity | right; eexists; reflexivity] |].
  destruct (GetTokenIDFromPartial client (tokenID c)) as [id [err|]];
    [apply Hfail; [reflexivity | right; eexists; reflexivity] |].
  destruct (TokenRead client id) as [err | token];
    [apply Hfail; [reflexivity | right; eexists; reflexivity] |].
  destruct (reconcile client c _) as [msg | links];
    [apply Hfail; [reflexivity | right; eexists; reflexivity] |].
  destruct (TokenUpdate client _) as [err | returned] eqn:Hup.
  - apply Hfail; [reflexivity | right; eexists; reflexivity].
  - cbn. split; [now left |]. split; [| discriminate].
    intros _. eexists c, client, _, returned. repeat split; eauto.
Qed.

End CommandInvariants.

(* ===================================================================== *)
(** * [consul tls cert create] *)
(* ===================================================================== *)

Section CertCreate.
Import create.

Variable e : Env.

Lemma search_range prefix fuel i :
  match search e prefix i fuel with
  | Some (cert, pk) =>
      exists k,
        i <= k <= i + fuel
        /\ cert = certName prefix k /\ pk = keyName prefix k
        /\ free e prefix k = true
        /\ forall j, i <= j < k -> free e prefix j = false
  | None => forall j, i <= j <= i + fuel -> free e prefix j = false
  end.
Proof.
  revert i. induction fuel as [|fuel IH]; intros i; cbn [search];
    fold (free e prefix i); destruct (free e prefix i) eqn:Hfree.
  - exists i. repeat split; auto; lia.
  - intros j Hj. assert (j = i) as -> by lia. exact Hfree.
  - exists i. repeat split; auto; lia.
  - specialize (IH (S i)).
    destruct (search e prefix (S i) fuel) as [[cert pk]|].
    + destruct IH as (k & Hk & Hc & Hp & Hf & Hmin).
      exists k. repeat split; auto; try lia.
      intros j Hj. destruct (Nat.eq_dec j i) as [-> | Hne]; [exact Hfree |].
      apply Hmin. lia.
    + intros j Hj. destruct (Nat.eq_dec j i) as [-> | Hne]; [exact Hfree |].
      apply IH. lia.
Qed.

(** The file names chosen are those of the least index up to [max] at
    which neither file exists; there are none exactly when every index up to
    [max] has one of its files. *)
Theorem first_free_index prefix :
  (forall cert pk,
      search e prefix 0 max = Some (cert, pk) ->
      exists i,
        i <= max
        /\ cert = certName prefix i /\ pk = keyName prefix i
        /\ FileDoesNotExist e cert = true /\ FileDoesNotExist e pk = true
        /\ forall j, j < i -> free e prefix j = false)
  /\ (search e prefix 0 max = None <->
      forall j, j <= max -> free e prefix j = false).
Proof.
  pose proof (search_range prefix max 0) as H. split.
  - intros cert pk Hs. rewrite Hs in H.
    destruct H as (k & Hk & -> & -> & Hf & Hmin).
    exists k. unfold free in Hf. apply andb_true_iff in Hf.
    repeat split; try tauto; try lia.
    intros j Hj. apply Hmin. lia.
  - split.
    + intros Hs. rewrite Hs in H. intros j Hj. apply H. lia.
    + intros Hall. destruct (search e prefix 0 max) as [[cert pk]|]; [| reflexivity].
      destruct H as (k & Hk & _ & _ & Hf & _).
      rewrite Hall in Hf by lia. discriminate.
Qed.

(** Unless exactly one of [-server], [-client] and [-cli] is set, the run
    stops with the message that asks for one, whatever the file system
    holds; and with exactly one set, the role is known, so the branch that
    should not happen is not taken. *)
Theorem one_role_or_nothing c rest :
  ca c <> "" -> key c <> "" ->
  (roles c <> 1 ->
   runParsed e c rest
   = stop [] [] "Please provide either -server, -client, or -cli")
  /\ (roles c = 1 -> forall prefix, role c prefix <> None).
Proof.
  intros Hca Hkey. apply String.eqb_neq in Hca, Hkey. split.
  - intros Hroles. unfold runParsed. rewrite Hca, Hkey.
    unfold roles in Hroles.
    destruct (server c), (client c), (cli c); cbn in Hroles;
      cbn [negb andb orb]; try reflexivity; now elim Hroles.
  - intros Hroles prefix. unfold role. unfold roles in Hroles.
    destruct (server c), (client c), (cli c); cbn in Hroles; discriminate.
Qed.

(** A run exits with 0 or 1.  With 0 it has created the certificate file
    and the key file of one index, neither of which existed; with 1 it has
    created nothing, or the certificate file alone because the key file
    could not be created. *)
Theorem what_a_run_writes c rest :
  (code (runParsed e c rest) = 0%Z \/ code (runParsed e c rest) = 1%Z)
  /\ (code (runParsed e c rest) = 0%Z ->
      exists prefix i pub priv,
        i <= max
        /\ written (runParsed e c rest)
           = [(certName prefix i, pub); (keyName prefix i, priv)]
        /\ free e prefix i = true
        /\ Create e (certName prefix i) = None
        /\ Create e (keyName prefix i) = None)
  /\ (code (runParsed e c rest) = 1%Z ->
      written (runParsed e c rest) = []
      \/ exists prefix i pub err,
           written (runParsed e c rest) = [(certName prefix i, pub)]
           /\ free e prefix i = true
           /\ Create e (keyName prefix i) = Some err).
Proof.
  assert (Hstop : forall said msg (o := stop said [] msg),
             (code o = 0%Z \/ code o = 1%Z)
             /\ (code o = 0%Z ->
                 exists prefix i pub priv,
                   i <= max
                   /\ written o = [(certName prefix i, pub); (keyName prefix i, priv)]
                   /\ free e prefix i = true
                   /\ Create e (certName prefix i) = None
                   /\ Create e (keyName prefix i) = None)
             /\ (code o = 1%Z ->
                 written o = []
                 \/ exists prefix i pub err,
                      written o = [(certName prefix i, pub)]
                      /\ free e prefix i = true
                      /\ Create e (keyName prefix i) = Some err)).
  { intros said msg o. cbn. split; [now right |]. split; [discriminate | now left]. }
  unfold runParsed.
  destruct (ca c =? "")%string; [apply Hstop |].
  destruct (key c =? "")%string; [apply Hstop |].
  destruct (negb _); [apply Hstop |].
  destruct (role c _) as [[[[names ips] usages] prefix]|]; [| apply Hstop].
  destruct (search e prefix 0 max) as [[cert pk]|] eqn:Hsearch; [| apply Hstop].
  destruct (proj1 (first_free_index prefix) cert pk Hsearch)
    as (i & Hi & -> & -> & Hfc & Hfp & _).
  assert (Hfree : free e prefix i = true)
    by (unfold free; now rewrite Hfc, Hfp).
  destruct (ReadFile e (ca c)) as [err | cert]; [apply Hstop |].
  destruct (ReadFile e (key c)) as [err | keyPEM]; [apply Hstop |].
  destruct (ParseSigner e keyPEM) as [err | signer]; [apply Hstop |].
  destruct (GenerateSerialNumber e) as [err | sn]; [apply Hstop |].
  destruct (GenerateCert e signer cert sn names ips usages) as [err | [pub priv]];
    [apply Hstop |].
  destruct (Create e (certName prefix i)) as [err|] eqn:Hcert; [apply Hstop |].
  destruct (Create e (keyName prefix i)) as [err|] eqn:Hkey; cbn.
  - split; [now right |]. split; [discriminate |].
    intros _. right. exists prefix, i, pub, err. auto.
  - split; [now left |]. split; [| discriminate].
    intros _. exists prefix, i, pub, priv. auto.
Qed.

(** The datacenter and the domain matter only for server certificates: for
    any other command they change nothing of the run. *)
Theorem datacenter_only_for_servers c rest dc' domain' :
  server c = false ->
  runParsed e (withDomain c dc' domain') rest = runParsed e c rest.
Proof.
  intros Hs. unfold runParsed, role, withDomain.
  cbn [ca key server client cli dc domain]. rewrite Hs. reflexivity.
Qed.

End CertCreate.

(* ===================================================================== *)
(** * The further properties on concrete requests *)
(* ===================================================================== *)

Section FurtherScenarios.
Import structs agent endpoints server_scenario endpoint_scenario.

Lemma rejected_requests_reach_no_store_witness :
  calls (snd (run (ACLTokenCRUD imports emptyServer getTokenNoID))) = [].
Proof.
  apply (rejected_requests_reach_no_store imports emptyServer
           (ACLTokenCRUD imports emptyServer) getTokenNoID).
  - unfold all. cbn [In]. do 8 right. left. reflexivity.
  - reflexivity.
Defined.

Lemma at_most_one_rpc_witness :
  length (calls (snd (run (ACLTokenCRUD imports rulelessServer getToken)))) <= 1.
Proof.
  apply (at_most_one_rpc imports rulelessServer
           (ACLTokenCRUD imports rulelessServer) getToken).
  unfold all. cbn [In]. do 8 right. left. reflexivity.
Defined.

Lemma writes_carry_the_credential_witness :
  "dc1" = Datacenter emptyServer /\ "root" = parseToken emptyServer deleteToken "".
Proof.
  apply (writes_carry_the_credential imports emptyServer
           (ACLTokenCRUD imports emptyServer) deleteToken
           (ACL_TokenDelete {| td_TokenID := "aaaa1111"; td_Datacenter := "dc1";
                               td_Token := "root" |})).
  - unfold all. cbn [In]. do 8 right. left. reflexivity.
  - left. reflexivity.
  - reflexivity.
Defined.

Lemma queries_name_a_datacenter_witness : "dc1" <> "".
Proof.
  apply (queries_name_a_datacenter imports rulelessServer
           (ACLTokenCRUD imports rulelessServer) getToken
           (ACL_TokenRead {| tr_TokenID := "aaaa1111";
                             tr_TokenIDType := ACLTokenAccessor;
                             tr_Datacenter := "dc1";
                             tr_QueryOptions := zeroOptions |})).
  - discriminate.
  - unfold all. cbn [In]. do 8 right. left. reflexivity.
  - left. reflexivity.
  - reflexivity.
Defined.

Lemma metadata_follows_every_query_witness :
  exists written,
    resp (snd (run (ACLTokenCRUD imports emptyServer getToken)))
    = written ++ [SetMeta zeroMeta].
Proof.
  apply (metadata_follows_every_query imports emptyServer
           (ACLTokenCRUD imports emptyServer) getToken
           (ACL_TokenRead {| tr_TokenID := "aaaa1111";
                             tr_TokenIDType := ACLTokenAccessor;
                             tr_Datacenter := "dc1";
                             tr_QueryOptions := zeroOptions |})).
  - unfold all. cbn [In]. do 8 right. left. reflexivity.
  - left. reflexivity.
  - reflexivity.
Defined.

Lemma path_names_the_token_witness :
  AccessorID
    (tu_ACLToken
       {| tu_ACLToken := set_AccessorID
                           (fst (decodeBody_ACLToken imports putToken)) "aaaa1111";
          tu_Datacenter := "dc1"; tu_Token := "root" |})
  = tokenPathID putToken.
Proof.
  apply (proj1 (path_names_the_token imports emptyServer putToken _)).
  - left. reflexivity.
  - discriminate.
Defined.

Lemma store_errors_pass_through_witness :
  fst (run (ACLBootstrap imports leaderlessServer postBootstrap))
  = (Nil, Some (Err "No cluster leader"))
  \/ (isBootstrap (ACL_Bootstrap (bootstrapArgs leaderlessServer)) = true
      /\ strings.Contains "No cluster leader" (ACLBootstrapNotAllowedErr imports) = true
      /\ fst (run (ACLBootstrap imports leaderlessServer postBootstrap)) = (Nil, None)).
Proof.
  apply (store_errors_pass_through imports leaderlessServer
           (ACLBootstrap imports leaderlessServer) postBootstrap
           (ACL_Bootstrap (bootstrapArgs leaderlessServer)) "No cluster leader").
  - unfold all. cbn [In]. left. reflexivity.
  - left. reflexivity.
  - reflexivity.
Defined.

Lemma no_value_with_an_error_witness :
  fst (fst (run (ACLTokenCRUD imports emptyServer getToken))) = Nil.
Proof.
  apply (no_value_with_an_error imports emptyServer
           (ACLTokenCRUD imports emptyServer) getToken).
  - unfold all. cbn [In]. do 8 right. left. reflexivity.
  - discriminate.
Defined.

Lemma policy_upsert_payload_witness :
  Syntax (pu_Policy upsertByName) = SyntaxCurrent
  /\ Name (pu_Policy upsertByName)
     = Name (fst (decodeBody_Policy imports putPolicyByName))
  /\ policy_Rules (pu_Policy upsertByName)
     = policy_Rules (fst (decodeBody_Policy imports putPolicyByName))
  /\ policy_Description (pu_Policy upsertByName)
     = policy_Description (fst (decodeBody_Policy imports putPolicyByName))
  /\ (ID (pu_Policy upsertByName) = ID (fst (decodeBody_Policy imports putPolicyByName))
      \/ (ID (fst (decodeBody_Policy imports putPolicyByName)) = ""
          /\ ID (pu_Policy upsertByName) = policyPathID putPolicyByName)
      \/ (ID (fst (decodeBody_Policy imports putPolicyByName)) = ""
          /\ ID (pu_Policy upsertByName) = "")).
Proof.
  apply (policy_upsert_payload imports emptyServer
           (ACLPolicyCRUD imports emptyServer) putPolicyByName upsertByName).
  - unfold all. cbn [In]. do 5 right. left. reflexivity.
  - left. reflexivity.
Defined.

Lemma bootstrap_outcomes_witness :
  ACLsEnabled (delegate emptyServer) = true
  /\ Bootstrap (delegate emptyServer) (bootstrapArgs emptyServer)
     = (managementToken, None)
  /\ "5ecr3t" = SecretID managementToken
  /\ snd (run (ACLBootstrap imports emptyServer postBootstrap))
     = {| resp := []; calls := [ACL_Bootstrap (bootstrapArgs emptyServer)] |}.
Proof.
  apply (proj1 (bootstrap_outcomes imports emptyServer postBootstrap)
           {| bootstrap_ID := "5ecr3t"; bootstrap_ACLToken := managementToken |}).
  reflexivity.
Defined.

Lemma token_lookups_witness :
  "aaaa1111" = translatePathID getTranslate
  /\ "aaaa1111" <> ""
  /\ ACLTokenAccessor = ACLTokenAccessor
  /\ MinQueryIndex (set_MinQueryIndex zeroOptions 0) = 0%Z.
Proof.
  apply (proj1 (token_lookups imports rulelessServer getTranslate
                  {| tr_TokenID := "aaaa1111";
                     tr_TokenIDType := ACLTokenAccessor;
                     tr_Datacenter := "dc1";
                     tr_QueryOptions := set_MinQueryIndex zeroOptions 0 |})).
  left. reflexivity.
Defined.

Lemma translate_is_local_witness :
  resp (snd (run (ACLRulesTranslate imports postRules)))
  = [Write "key {policy = read}"].
Proof.
  apply (proj1 (proj2 (translate_is_local imports postRules))).
  reflexivity.
Defined.

Lemma clone_body_witness :
  calls (snd (run (ACLTokenClone importsNoBody emptyServer cloneToken)))
  = [ACL_TokenClone {| tu_ACLToken := set_AccessorID zeroToken "aaaa1111";
                       tu_Datacenter := "dc1"; tu_Token := "root" |}].
Proof.
  apply (proj1 (clone_body importsNoBody emptyServer cloneToken zeroToken "EOF"
                  eq_refl ltac:(discriminate) eq_refl)).
  reflexivity.
Defined.

Lemma policy_routes_witness :
  Method deletePolicyByName = "DELETE"
  /\ "my-policy" <> ""
  /\ "my-policy" = "my-policy"
  /\ ACLPolicyName = idTypeOf deletePolicyByName.
Proof.
  apply (policy_routes imports emptyServer deletePolicyByName "my-policy"
           (ACL_PolicyDelete {| pd_PolicyID := "my-policy";
                                pd_PolicyIDType := ACLPolicyName;
                                pd_Datacenter := "dc1"; pd_Token := "" |})).
  - reflexivity.
  - left. reflexivity.
Defined.

Lemma token_routes_witness :
  Method deleteToken = "DELETE" /\ "aaaa1111" <> "" /\ "aaaa1111" = "aaaa1111".
Proof.
  apply (token_routes imports emptyServer deleteToken "aaaa1111"
           (ACL_TokenDelete {| td_TokenID := "aaaa1111"; td_Datacenter := "dc1";
                               td_Token := "root" |})).
  - reflexivity.
  - left. reflexivity.
Defined.

Lemma crud_rejections_witness :
  run (ACLTokenCRUD imports emptyServer patchToken)
  = ((Nil, Some (MethodNotAllowedError "PATCH" ["GET"; "PUT"; "DELETE"])), initial)
  /\ run (ACLTokenCRUD imports emptyServer getTokenNoID)
     = ((Nil, Some (BadRequestError "Missing token ID")), initial)
  /\ run (ACLPolicyCRUD imports emptyServer getPolicyBadType)
     = ((Nil, Some (BadRequestError "Invalid value for idType parameter")), initial).
Proof.
  split; [| split].
  - apply (proj1 (crud_rejections imports emptyServer patchToken eq_refl)).
    cbn. intuition discriminate.
  - apply (proj1 (proj2 (crud_rejections imports emptyServer getTokenNoID eq_refl))).
    + cbn. auto.
    + reflexivity.
  - apply (proj2 (proj2 (crud_rejections imports emptyServer getPolicyBadType
                           eq_refl))).
    + cbn. auto.
    + left. discriminate.
    + cbn. intuition discriminate.
Defined.

End FurtherScenarios.

Section DecodeScenarios.
Import decode.

Lemma fixCreateTime_sets_time_witness :
  exists m',
    fixCreateTime parseOne tokenBody = (RawMap m', None)
    /\ lookup "CreateTime" m' = Some (RawTime 1539943200)
    /\ (forall key,
          key <> "CreateTime" ->
          lookup key m'
          = lookup key [("Description", RawString "agent token");
                        ("CreateTime", RawString "2018-10-19T10:00:00Z");
                        ("Local", RawBool false)])
    /\ map fst m' = ["Description"; "CreateTime"; "Local"].
Proof.
  apply (fixCreateTime_sets_time parseOne
           [("Description", RawString "agent token");
            ("CreateTime", RawString "2018-10-19T10:00:00Z");
            ("Local", RawBool false)]
           "2018-10-19T10:00:00Z" 1539943200); reflexivity.
Defined.

Lemma fixCreateTime_error_witness :
  fst (fixCreateTime parseOne badTokenBody) = badTokenBody
  /\ exists m sval,
       badTokenBody = RawMap m
       /\ lookup "CreateTime" m = Some (RawString sval)
       /\ parseOne sval = inl "parsing time: cannot parse as RFC3339".
Proof.
  apply (fixCreateTime_error parseOne badTokenBody). reflexivity.
Defined.

Lemma fixCreateTime_idempotent_witness :
  fixCreateTime parseOne (fst (fixCreateTime parseOne tokenBody))
  = (fst (fixCreateTime parseOne tokenBody), None).
Proof.
  apply (fixCreateTime_idempotent parseOne tokenBody). reflexivity.
Defined.

End DecodeScenarios.

Section CommandScenarios.
Import api tokenupdate reconciler commandline.

Lemma update_keeps_the_rest_witness :
  exists c client id token,
    Parse scenario.env init scenario.mergeOnlyArgs = Some c
    /\ APIClient scenario.env (http c) = inr client
    /\ GetTokenIDFromPartial client (tokenID c) = (id, None)
    /\ TokenRead client id = inr token
    /\ AccessorID (set_Description scenario.readOnlyToken "") = AccessorID token
    /\ SecretID (set_Description scenario.readOnlyToken "") = SecretID token
    /\ Local (set_Description scenario.readOnlyToken "") = Local token
    /\ CreateTime (set_Description scenario.readOnlyToken "") = CreateTime token
    /\ Rules (set_Description scenario.readOnlyToken "") = Rules token
    /\ Description (set_Description scenario.readOnlyToken "") = description c
    /\ reconcile client c (Policies token)
       = inr (Policies (set_Description scenario.readOnlyToken "")).
Proof.
  apply (update_keeps_the_rest scenario.env scenario.mergeOnlyArgs
           (set_Description scenario.readOnlyToken "")).
  reflexivity.
Defined.

Lemma unresolved_policy_stops_the_update_witness :
  sent (Run strictEnv [("id", "abcd1234"); ("policy-id", "7f1a")]) = None
  /\ code (Run strictEnv [("id", "abcd1234"); ("policy-id", "7f1a")]) = 1%Z.
Proof.
  apply (unresolved_policy_stops_the_update strictEnv
           [("id", "abcd1234"); ("policy-id", "7f1a")]
           {| http := []; tokenID := "abcd1234"; policyIDs := ["7f1a"];
              policyNames := []; description := ""; mergePolicies := false |}
           strictClient
           "Error resolving policy ID : No such policy ID with prefix: 7f1a");
    reflexivity.
Defined.

Lemma requested_policies_are_linked_witness :
  (forall n, In n (policyNames mergeBoth) ->
             foundName [NameLink "read-only"; NameLink "write"; IDLink "7f1a"] n = true)
  /\ (forall rids i,
        resolveAll scenario.client (policyIDs mergeBoth) = inr rids ->
        In i rids ->
        foundID [NameLink "read-only"; NameLink "write"; IDLink "7f1a"] i = true).
Proof.
  apply (requested_policies_are_linked scenario.client mergeBoth
           [NameLink "read-only"]).
  reflexivity.
Defined.

Lemma merge_into_nothing_is_replace_witness :
  reconcile scenario.client mergeBoth [] = reconcile scenario.client replaceBoth [].
Proof.
  apply (merge_into_nothing_is_replace scenario.client mergeBoth replaceBoth ["7f1a"]);
    try reflexivity.
  - repeat constructor. cbn. tauto.
  - repeat constructor. cbn. tauto.
  - cbn. intuition discriminate.
Defined.

Lemma flags_accumulate_witness :
  policyNames {| http := []; tokenID := "abcd5678"; policyIDs := ["7f1a"];
                 policyNames := ["read"; "write"]; description := "";
                 mergePolicies := false |}
  = flagValues "policy-name" repeatedFlags
  /\ ["7f1a"] = flagValues "policy-id" repeatedFlags
  /\ "abcd5678" = flagValue "id" "" repeatedFlags.
Proof.
  apply (flags_accumulate scenario.env repeatedFlags
           {| http := []; tokenID := "abcd5678"; policyIDs := ["7f1a"];
              policyNames := ["read"; "write"]; description := "";
              mergePolicies := false |}).
  reflexivity.
Defined.

Lemma exit_code_and_output_witness :
  exists c client sentToken returned,
    Parse scenario.env init scenario.mergeOnlyArgs = Some c
    /\ APIClient scenario.env (http c) = inr client
    /\ sent (Run scenario.env scenario.mergeOnlyArgs) = Some sentToken
    /\ TokenUpdate client sentToken = inr returned
    /\ ui (Run scenario.env scenario.mergeOnlyArgs)
       = [UIInfo "Token updated successfully."; PrintToken returned true].
Proof.
  apply (proj1 (proj2 (exit_code_and_output scenario.env scenario.mergeOnlyArgs))).
  reflexivity.
Defined.

End CommandScenarios.

Section CertScenarios.
Import create create_scenario.

Lemma first_free_index_witness :
  exists i,
    i <= max
    /\ "consul-server-dc1-1.pem" = certName "consul-server-dc1" i
    /\ "consul-server-dc1-1-key.pem" = keyName "consul-server-dc1" i
    /\ FileDoesNotExist (directory false) "consul-server-dc1-1.pem" = true
    /\ FileDoesNotExist (directory false) "consul-server-dc1-1-key.pem" = true
    /\ forall j, j < i -> free (directory false) "consul-server-dc1" j = false.
Proof.
  apply (proj1 (first_free_index (directory false) "consul-server-dc1")).
  reflexivity.
Defined.

Lemma one_role_or_nothing_witness :
  runParsed (directory false) noRoleCmd []
  = stop [] [] "Please provide either -server, -client, or -cli"
  /\ role serverCmd "consul" <> None.
Proof.
  split.
  - apply (proj1 (one_role_or_nothing (directory false) noRoleCmd []
                    ltac:(discriminate) ltac:(discriminate))).
    discriminate.
  - apply (proj2 (one_role_or_nothing (directory false) serverCmd []
                    ltac:(discriminate) ltac:(discriminate))).
    reflexivity.
Defined.

Lemma what_a_run_writes_witness :
  (exists prefix i pub priv,
      i <= max
      /\ written (runParsed (directory false) serverCmd [])
         = [(certName prefix i, pub); (keyName prefix i, priv)]
      /\ free (directory false) prefix i = true
      /\ Create (directory false) (certName prefix i) = None
      /\ Create (directory false) (keyName prefix i) = None)
  /\ (written (runParsed (directory true) serverCmd []) = []
      \/ exists prefix i pub err,
           written (runParsed (directory true) serverCmd [])
           = [(certName prefix i, pub)]
           /\ free (directory true) prefix i = true
           /\ Create (directory true) (keyName prefix i) = Some err).
Proof.
  split.
  - apply (proj1 (proj2 (what_a_run_writes (directory false) serverCmd []))).
    reflexivity.
  - apply (proj2 (proj2 (what_a_run_writes (directory true) serverCmd []))).
    reflexivity.
Defined.

Lemma datacenter_only_for_servers_witness :
  runParsed (directory false) (withDomain clientCmd "dc2" "example") []
  = runParsed (directory false) clientCmd [].
Proof.
  apply (datacenter_only_for_servers (directory false) clientCmd [] "dc2" "example").
  reflexivity.
Defined.

End CertScenarios.
